(** * Tasks: the two dashboards, embedded and verified

    [Day 1/app.py] (student marks: totals, averages, class-wise and
    subject-wise means) and [Day 2/view_transactions.py] (bank transactions:
    date and amount filters, credit/debit/net metrics).

    Numbers.  pandas holds a column as int64 or as float64.  An int64 sum is
    computed modulo 2^64 ([wrap64]).  A float64 value is idealised as the
    exact rational it stands for ([Qc], canonical, so that equal values are
    equal terms): the rounding of a float64 operation is not modelled, and
    no statement below equates float64 results that the program accumulates
    along different paths unless it carries a tolerance.  A missing value is
    explicit: the cell [NaN], the date [None] (NaT). *)

From Stdlib Require Import ZArith QArith Qround Qcanon List String Bool Arith Lia Lqa Permutation Sorted.
Import ListNotations.

Local Open Scope string_scope.
Local Open Scope Qc_scope.
Local Open Scope list_scope.

(** ** Shared arithmetic on canonical rationals *)

Definition Qcltb (x y : Qc) : bool := if Qclt_le_dec x y then true else false.
Definition Qcleb (x y : Qc) : bool := if Qclt_le_dec y x then false else true.

Definition Qcsum (l : list Qc) : Qc := fold_right Qcplus 0 l.

Definition Qc_of_nat (n : nat) : Qc := Q2Qc (inject_Z (Z.of_nat n)).
Definition Qc_of_Z (z : Z) : Qc := Q2Qc (inject_Z z).

(** ** int64 arithmetic *)

Definition Zsum (l : list Z) : Z := fold_right Z.add 0%Z l.

(** The int64 that a two's-complement computation leaves for [z]. *)
Definition wrap64 (z : Z) : Z :=
  ((z + 2 ^ 63) mod 2 ^ 64 - 2 ^ 63)%Z.
Definition in_int64 (z : Z) : Prop := (- 2 ^ 63 <= z < 2 ^ 63)%Z.

(** ** Day 2: the transaction viewer *)

Module Transactions.

(** [datetime.date]: ordered lexicographically on (year, month, day). *)
Record date := mkdate { year : nat; month : nat; day : nat }.

Definition date_cmp (a b : date) : comparison :=
  match Nat.compare (year a) (year b) with
  | Eq => match Nat.compare (month a) (month b) with
          | Eq => Nat.compare (day a) (day b)
          | c => c
          end
  | c => c
  end.

Definition date_leb (a b : date) : bool :=
  match date_cmp a b with Gt => false | _ => true end.
Definition date_geb (a b : date) : bool := date_leb b a.
Definition date_le (a b : date) : Prop := date_cmp a b <> Gt.

(** A pandas timestamp: calendar day and time of day (microseconds since
    midnight).  [.dt.date] keeps the day. *)
Record datetime := mkdt { dt_date : date; dt_time : nat }.

(** A value of an amount column, with the dtype of its column: [load_data]
    leaves a column int64 when every value it got is an integer, float64
    otherwise, and selecting rows keeps the dtype. *)
Inductive number := Int64 (z : Z) | Float64 (q : Qc).

Definition value (n : number) : Qc :=
  match n with
  | Int64 z => Qc_of_Z z
  | Float64 q => q
  end.
Definition is_int64 (n : number) : bool :=
  match n with Int64 _ => true | Float64 _ => false end.
Definition int_of (n : number) : Z :=
  match n with Int64 z => z | Float64 _ => 0%Z end.

(** One row of the frame [load_data] returns: the date column has been
    through [pd.to_datetime] ([None] is NaT, a date that was NULL), the three
    amount columns through [pd.to_numeric(...).fillna(0)]. *)
Record txn := mktxn {
  transaction_date : option datetime;
  description : string;
  debit_cell : number;
  credit_cell : number;
  balance_cell : number
}.

(** The columns as numbers. *)
Definition debit_amount (r : txn) : Qc := value (debit_cell r).
Definition credit_amount (r : txn) : Qc := value (credit_cell r).
Definition balance (r : txn) : Qc := value (balance_cell r).

(** [.dt.date]: the calendar day, missing when the timestamp is. *)
Definition row_date (r : txn) : option date := option_map dt_date (transaction_date r).

Definition frame := list txn.

(** The two select boxes of the sidebar. *)
Inductive AmountType := All | Credit | Debit.
Inductive Condition := AnyAmount | GreaterThan | LessThan | Between.

(** The widget values the filtering block reads. *)
Record criteria := mkcriteria {
  start_date : date;
  end_date : date;
  amount_type : AmountType;
  filter_condition : Condition;
  amount1 : Qc;
  amount2 : Qc
}.

(** [target_column]: the empty string (falsy) for "All". *)
Definition target_column (t : AmountType) : option (txn -> Qc) :=
  match t with
  | All => None
  | Credit => Some credit_amount
  | Debit => Some debit_amount
  end.

(** [Series.between(left, right)], inclusive on both sides. *)
Definition between (left right x : Qc) : bool := Qcleb left x && Qcleb x right.

(** The date mask; a comparison with a missing date is false. *)
Definition date_filter (c : criteria) (df : frame) : frame :=
  filter (fun r => match row_date r with
                   | Some d => date_geb d (start_date c) && date_leb d (end_date c)
                   | None => false
                   end) df.

Definition amount_filter (c : criteria) (filtered_df : frame) : frame :=
  match target_column (amount_type c) with
  | None => filtered_df
  | Some col =>
      match filter_condition c with
      | AnyAmount => filtered_df
      | GreaterThan => filter (fun r => Qcltb (amount1 c) (col r)) filtered_df
      | LessThan => filter (fun r => Qcltb (col r) (amount1 c)) filtered_df
      | Between =>
          let '(a1, a2) :=
            if Qcltb (amount2 c) (amount1 c)
            then (amount2 c, amount1 c) else (amount1 c, amount2 c) in
          filter (fun r => between a1 a2 (col r)) filtered_df
      end
  end.

Record metrics := mkmetrics { total_credit : Qc; total_debit : Qc; net_flow : Qc }.

(** [Series.sum()]: modulo 2^64 on an int64 column, the float64 sum
    otherwise. *)
Definition series_sum (col : list number) : number :=
  if forallb is_int64 col
  then Int64 (wrap64 (Zsum (map int_of col)))
  else Float64 (Qcsum (map value col)).

(** The difference of two numpy scalars: int64 when both are. *)
Definition number_sub (a b : number) : number :=
  match a, b with
  | Int64 x, Int64 y => Int64 (wrap64 (x - y))
  | _, _ => Float64 (value a - value b)
  end.

Definition key_metrics (filtered_df : frame) : metrics :=
  let tc := series_sum (map credit_cell filtered_df) in
  let td := series_sum (map debit_cell filtered_df) in
  {| total_credit := value tc; total_debit := value td;
     net_flow := value (number_sub tc td) |}.

(** Lines 85-119: the filtering block and the key metrics. *)
Definition filter_engine (df : frame) (c : criteria) : frame * metrics :=
  let filtered_df := amount_filter c (date_filter c df) in
  (filtered_df, key_metrics filtered_df).

(** The page: a warning and nothing else when the loaded frame is empty. *)
Definition dashboard (df : frame) (c : criteria) : option (frame * metrics) :=
  match df with
  | [] => None
  | _ => Some (filter_engine df c)
  end.

(** *** What the specification says a kept row is *)

Definition in_date_range (c : criteria) (r : txn) : Prop :=
  match row_date r with
  | Some d => date_le (start_date c) d /\ date_le d (end_date c)
  | None => False
  end.

Definition amount_ok (c : criteria) (r : txn) : Prop :=
  match amount_type c, filter_condition c with
  | All, _ => True
  | _, AnyAmount => True
  | Credit, GreaterThan => amount1 c < credit_amount r
  | Credit, LessThan => credit_amount r < amount1 c
  | Credit, Between =>
      (amount1 c <= credit_amount r /\ credit_amount r <= amount2 c) \/
      (amount2 c <= credit_amount r /\ credit_amount r <= amount1 c)
  | Debit, GreaterThan => amount1 c < debit_amount r
  | Debit, LessThan => debit_amount r < amount1 c
  | Debit, Between =>
      (amount1 c <= debit_amount r /\ debit_amount r <= amount2 c) \/
      (amount2 c <= debit_amount r /\ debit_amount r <= amount1 c)
  end.

Definition kept (c : criteria) (r : txn) : Prop := in_date_range c r /\ amount_ok c r.

Definition amount_okb (c : criteria) (r : txn) : bool :=
  match amount_type c, filter_condition c with
  | All, _ => true
  | _, AnyAmount => true
  | Credit, GreaterThan => Qcltb (amount1 c) (credit_amount r)
  | Credit, LessThan => Qcltb (credit_amount r) (amount1 c)
  | Credit, Between =>
      between (amount1 c) (amount2 c) (credit_amount r)
      || between (amount2 c) (amount1 c) (credit_amount r)
  | Debit, GreaterThan => Qcltb (amount1 c) (debit_amount r)
  | Debit, LessThan => Qcltb (debit_amount r) (amount1 c)
  | Debit, Between =>
      between (amount1 c) (amount2 c) (debit_amount r)
      || between (amount2 c) (amount1 c) (debit_amount r)
  end.

(** The date test alone. *)
Definition in_dates (c : criteria) (r : txn) : bool :=
  match row_date r with
  | Some d => date_leb (start_date c) d && date_leb d (end_date c)
  | None => false
  end.

Definition keptb (c : criteria) (r : txn) : bool := in_dates c r && amount_okb c r.

(** The criteria with the two amount bounds exchanged. *)
Definition swap_bounds (c : criteria) : criteria :=
  {| start_date := start_date c; end_date := end_date c;
     amount_type := amount_type c; filter_condition := filter_condition c;
     amount1 := amount2 c; amount2 := amount1 c |}.

(** *** Sample data: the three transactions of the specification's scenario *)

Definition at_midnight (y m d : nat) : datetime :=
  {| dt_date := mkdate y m d; dt_time := 0 |}.

Definition sample_txns : frame :=
  [ mktxn (Some (at_midnight 2024 1 1)) "salary" (Int64 0) (Int64 1000) (Int64 1000);
    mktxn (Some (at_midnight 2024 1 5)) "rent" (Int64 300) (Int64 0) (Int64 700);
    mktxn (Some (at_midnight 2024 2 1)) "refund" (Int64 0) (Int64 500) (Int64 1200) ].

(** Two credits whose int64 sum passes 2^63 - 1. *)
Definition huge_credits : frame :=
  [ mktxn (Some (at_midnight 2024 1 1)) "a" (Int64 0) (Int64 9223372036854775807) (Int64 0);
    mktxn (Some (at_midnight 2024 1 2)) "b" (Int64 0) (Int64 1) (Int64 0) ].

(** The same two credits, the first row with a debit of 1. *)
Definition huge_net : frame :=
  [ mktxn (Some (at_midnight 2024 1 1)) "a" (Int64 1) (Int64 9223372036854775807) (Int64 0);
    mktxn (Some (at_midnight 2024 1 2)) "b" (Int64 0) (Int64 1) (Int64 0) ].

(** The second transaction has lost its date. *)
Definition undated_txns : frame :=
  [ mktxn (Some (at_midnight 2024 1 1)) "salary" (Int64 0) (Int64 1000) (Int64 1000);
    mktxn None "rent" (Int64 300) (Int64 0) (Int64 700) ].

Definition reversed_criteria : criteria :=
  mkcriteria (mkdate 2024 1 31) (mkdate 2024 1 1) All AnyAmount 0 0.

Definition between_criteria : criteria :=
  mkcriteria (mkdate 2024 1 1) (mkdate 2024 2 1) Credit Between
             (Qc_of_Z 1000) (Qc_of_Z 400).

(** *** The sidebar: date bounds and initial widget values *)

(** Timestamps are ordered by day, then by time of day. *)
Definition datetime_leb (a b : datetime) : bool :=
  match date_cmp (dt_date a) (dt_date b) with
  | Lt => true
  | Eq => Nat.leb (dt_time a) (dt_time b)
  | Gt => false
  end.
Definition datetime_min (a b : datetime) : datetime :=
  if datetime_leb a b then a else b.
Definition datetime_max (a b : datetime) : datetime :=
  if datetime_leb a b then b else a.

(** The timestamps that are not missing. *)
Definition timestamps (df : frame) : list datetime :=
  flat_map (fun r => match transaction_date r with Some t => [t] | None => [] end) df.

(** Lines 58-59: [df['transaction_date'].min().date()] and [.max().date()];
    [min] and [max] skip missing timestamps.  [None]: no timestamp at all. *)
Definition min_date (df : frame) : option date :=
  match timestamps df with
  | [] => None
  | t :: ts => Some (dt_date (fold_left datetime_min ts t))
  end.
Definition max_date (df : frame) : option date :=
  match timestamps df with
  | [] => None
  | t :: ts => Some (dt_date (fold_left datetime_max ts t))
  end.

(** The rows that have a date. *)
Definition dated (df : frame) : frame :=
  filter (fun r => match transaction_date r with Some _ => true | None => false end) df.

(** What the widgets hold before the user touches them: the two date inputs
    start at [min_date] and [max_date], the select boxes at their first
    option, and [amount1 = amount2 = 0]. *)
Definition default_criteria (df : frame) : option criteria :=
  match min_date df, max_date df with
  | Some lo, Some hi => Some (mkcriteria lo hi All AnyAmount 0 0)
  | _, _ => None
  end.

(** The same dates and transaction type with another amount condition. *)
Definition with_condition (c : criteria) (cond : Condition) (a1 a2 : Qc) : criteria :=
  {| start_date := start_date c; end_date := end_date c;
     amount_type := amount_type c; filter_condition := cond;
     amount1 := a1; amount2 := a2 |}.

(** The int64 sum of a column comes out as the mathematical sum. *)
Definition sum_fits (col : list number) : Prop :=
  forallb is_int64 col = true -> in_int64 (Zsum (map int_of col)).
(** The int64 difference of the totals of two columns comes out as their
    mathematical difference. *)
Definition difference_fits (a b : list number) : Prop :=
  forallb is_int64 a = true -> forallb is_int64 b = true ->
  in_int64 (wrap64 (Zsum (map int_of a)) - wrap64 (Zsum (map int_of b))).

(** Line 136: the two counts of "Showing .. of .. total transactions". *)
Definition info_counts (df : frame) (c : criteria) : nat * nat :=
  (List.length (fst (filter_engine df c)), List.length df).

End Transactions.

(** ** Day 1: the student marks analysis *)

Module Marks.

(** A cell of a frame read by [pd.read_csv]: text, a whole number of an
    int64 column (every cell of the column is a whole number within int64),
    a float64 number, or a missing value. *)
Inductive cell := Str (s : string) | Int (z : Z) | Num (q : Qc) | NaN.

Definition is_int (c : cell) : bool :=
  match c with Int _ => true | _ => false end.
Definition int_val (c : cell) : Z :=
  match c with Int z => z | _ => 0%Z end.

(** The float64 a reduction takes a cell as. *)
Definition cell_val (c : cell) : Qc :=
  match c with
  | Int z => Qc_of_Z z
  | Num q => q
  | _ => 0
  end.

(** The exceptions the pandas calls of the script can raise. *)
Inductive exn := KeyError | TypeError.

Inductive result (A : Type) : Type := Ok (a : A) | Raise (e : exn).
Arguments Ok {A} a.
Arguments Raise {A} e.

Definition bind {A B : Type} (m : result A) (k : A -> result B) : result B :=
  match m with
  | Ok a => k a
  | Raise e => Raise e
  end.

Notation "x <- m ;; k" := (bind m (fun x => k))
  (at level 61, m at next level, right associativity).

Fixpoint mapM {A B : Type} (f : A -> result B) (l : list A) : result (list B) :=
  match l with
  | [] => Ok []
  | a :: l' => b <- f a ;; bs <- mapM f l' ;; Ok (b :: bs)
  end.

(** A frame, row by row under its header.  [read_csv] gives every row one
    cell per column and makes the labels distinct. *)
Record DataFrame := mkdf { columns : list string; rows : list (list cell) }.

(** A Series indexed by column labels, and a frame indexed by group keys. *)
Definition Series := list (string * cell).
Record GroupFrame := mkgf { g_columns : list string; g_rows : list (cell * list cell) }.

(** Python slicing [l[a:b]] and [l[a:]] for non-negative bounds. *)
Definition slice {A : Type} (a b : nat) (l : list A) : list A :=
  firstn (b - a) (skipn a l).

(** [df.iloc[:, a:]] and [df.iloc[:, a:b]]. *)
Definition iloc_from (a : nat) (df : DataFrame) : DataFrame :=
  {| columns := skipn a (columns df); rows := map (skipn a) (rows df) |}.
Definition iloc (a b : nat) (df : DataFrame) : DataFrame :=
  {| columns := slice a b (columns df); rows := map (slice a b) (rows df) |}.

(** The numbers a reduction sees: missing values are skipped ([skipna]),
    text makes the reduction raise. *)
Fixpoint numeric (l : list cell) : result (list Qc) :=
  match l with
  | [] => Ok []
  | Int z :: l' => xs <- numeric l' ;; Ok (Qc_of_Z z :: xs)
  | Num q :: l' => xs <- numeric l' ;; Ok (q :: xs)
  | NaN :: l' => numeric l'
  | Str _ :: _ => Raise TypeError
  end.

(** [sum] and [mean] in float64.  [sum]: 0 over no values.  [mean]: NaN over
    no values. *)
Definition sum_cells (l : list cell) : result cell :=
  xs <- numeric l ;; Ok (Num (Qcsum xs)).
Definition mean_cells (l : list cell) : result cell :=
  xs <- numeric l ;;
  Ok (match xs with
      | [] => NaN
      | _ => Num (Qcsum xs / Qc_of_nat (List.length xs))
      end).

(** A frame whose columns are all int64: it has a column, and every cell is
    a whole number. *)
Definition int64_frame (df : DataFrame) : bool :=
  match columns df with
  | [] => false
  | _ => forallb (forallb is_int) (rows df)
  end.

(** The sum of int64 values stays in int64: it is taken modulo 2^64. *)
Definition sum_int64 (l : list cell) : cell := Int (wrap64 (Zsum (map int_val l))).

(** [df.sum(axis=1)], [df.mean(axis=1)]: one value per row.  The sum of an
    int64 frame is int64; any other frame is summed in float64.  The mean is
    always taken in float64. *)
Definition sum_axis1 (df : DataFrame) : result (list cell) :=
  if int64_frame df then Ok (map sum_int64 (rows df))
  else mapM sum_cells (rows df).
Definition mean_axis1 (df : DataFrame) : result (list cell) := mapM mean_cells (rows df).

(** Position of a label in the header. *)
Fixpoint index_of (name : string) (cols : list string) : option nat :=
  match cols with
  | [] => None
  | c :: cols' =>
      if String.eqb c name then Some 0%nat
      else option_map S (index_of name cols')
  end.

Fixpoint set_nth (i : nat) (v : cell) (r : list cell) : list cell :=
  match r, i with
  | [], _ => []
  | _ :: r', O => v :: r'
  | c :: r', S i' => c :: set_nth i' v r'
  end.

(** [df[name] = values]: overwrite the column of that label where it is,
    else add a last column.  [values] has one entry per row, as it is
    computed from [df] itself. *)
Definition setitem (df : DataFrame) (name : string) (values : list cell) : DataFrame :=
  match index_of name (columns df) with
  | Some i =>
      {| columns := columns df;
         rows := map (fun rv => set_nth i (snd rv) (fst rv)) (combine (rows df) values) |}
  | None =>
      {| columns := columns df ++ [name];
         rows := map (fun rv => fst rv ++ [snd rv]) (combine (rows df) values) |}
  end.

Definition cells_at (j : nat) (rs : list (list cell)) : list cell :=
  map (fun r => nth j r NaN) rs.

(** [df.mean()]: one mean per column, labelled, in column order. *)
Definition mean_axis0 (df : DataFrame) : result Series :=
  mapM (fun jn => m <- mean_cells (cells_at (fst jn) (rows df)) ;; Ok (snd jn, m))
       (combine (seq 0 (List.length (columns df))) (columns df)).

(** Group keys: equality, and the order the result index is sorted in. *)
Definition cell_eqb (a b : cell) : bool :=
  match a, b with
  | Str s, Str t => String.eqb s t
  | Int x, Int y => Z.eqb x y
  | Num x, Num y => Qc_eq_bool x y
  | NaN, NaN => true
  | _, _ => false
  end.

Definition cell_leb (a b : cell) : bool :=
  match a, b with
  | NaN, _ => true
  | _, NaN => false
  | Str s, Str t => String.leb s t
  | Str _, _ => false
  | _, Str _ => true
  | _, _ => Qcleb (cell_val a) (cell_val b)
  end.

Definition notna (c : cell) : bool :=
  match c with NaN => false | _ => true end.

(** Distinct values in order of first appearance. *)
Fixpoint unique (l : list cell) : list cell :=
  match l with
  | [] => []
  | k :: l' => k :: filter (fun x => negb (cell_eqb x k)) (unique l')
  end.

Fixpoint insert_key (k : cell) (l : list cell) : list cell :=
  match l with
  | [] => [k]
  | k' :: l' => if cell_leb k k' then k :: l else k' :: insert_key k l'
  end.

Definition sort_keys (l : list cell) : list cell := fold_right insert_key [] l.

(** The groups of [groupby]: sorted distinct keys, missing keys dropped, and
    for each key the rows that carry it, in frame order. *)
Definition group_keys (key : nat) (df : DataFrame) : list cell :=
  sort_keys (unique (filter notna (cells_at key (rows df)))).
Definition group_rows (key : nat) (k : cell) (df : DataFrame) : list (list cell) :=
  filter (fun r => cell_eqb (nth key r NaN) k) (rows df).

Definition label_index (cols : list string) (name : string) : result nat :=
  match index_of name cols with
  | Some j => Ok j
  | None => Raise KeyError
  end.

(** [df.groupby(by)[names].mean()]. *)
Definition groupby_mean (by_ : string) (names : list string) (df : DataFrame)
  : result GroupFrame :=
  key <- label_index (columns df) by_ ;;
  idx <- mapM (label_index (columns df)) names ;;
  body <- mapM (fun k =>
                  ms <- mapM (fun j => mean_cells (cells_at j (group_rows key k df))) idx ;;
                  Ok (k, ms))
               (group_keys key df) ;;
  Ok {| g_columns := names; g_rows := body |}.

(** Lines 15-16. The second slice is taken on the frame that already holds
    the total. *)
Definition augment (df : DataFrame) : result DataFrame :=
  total <- sum_axis1 (iloc_from 3 df) ;;
  let df := setitem df "Total Marks" total in
  average <- mean_axis1 (iloc 3 7 df) ;;
  Ok (setitem df "Average Marks" average).

(** Line 19 and line 22, on the augmented frame. *)
Definition class_averages (df : DataFrame) : result GroupFrame :=
  groupby_mean "Class" (slice 3 7 (columns df)) df.
Definition subject_averages (df : DataFrame) : result Series :=
  mean_axis0 (iloc 3 7 df).

(** The body of the button handler, lines 15-22. *)
Definition aggregate (df : DataFrame) : result (DataFrame * GroupFrame * Series) :=
  df' <- augment df ;;
  ca <- class_averages df' ;;
  sa <- subject_averages df' ;;
  Ok (df', ca, sa).

(** *** Vocabulary of the specification *)

Definition is_num (c : cell) : Prop :=
  match c with Int _ | Num _ => True | _ => False end.
Definition vals (l : list cell) : list Qc := map cell_val l.

(** Arithmetic mean of a list of numbers. *)
Definition arith_mean (xs : list Qc) : Qc := Qcsum xs / Qc_of_nat (List.length xs).

(** Every row has one cell per label; labels are distinct. *)
Definition rows_wf (df : DataFrame) : Prop :=
  Forall (fun r => List.length r = List.length (columns df)) (rows df).
Definition wf_frame (df : DataFrame) : Prop :=
  NoDup (columns df) /\ rows_wf df.

(** The columns from position [n] on hold numbers only. *)
Definition numeric_from (n : nat) (df : DataFrame) : Prop :=
  Forall (fun r => Forall is_num (skipn n r)) (rows df).

(** [df[name]] as a list of cells. *)
Definition column_of (name : string) (df : DataFrame) : option (list cell) :=
  option_map (fun j => cells_at j (rows df)) (index_of name (columns df)).

(** Every row carries a class. *)
Definition has_classes (df : DataFrame) : Prop :=
  exists cs, column_of "Class" df = Some cs /\ forallb notna cs = true.

(** Number of rows of class [k]. *)
Definition class_size (df : DataFrame) (k : cell) : nat :=
  match column_of "Class" df with
  | Some cs => List.length (filter (fun c => cell_eqb c k) cs)
  | None => 0
  end.

(** Mean of column [j] over the rows of class [k]. *)
Definition group_mean (key : nat) (d : DataFrame) (k : cell) (j : nat) : cell :=
  Num (arith_mean (vals (cells_at j (group_rows key k d)))).

(** Mean of the values [x] weighted by [w], over pairs [(w, x)]. *)
Definition weighted_mean (wxs : list (Qc * Qc)) : Qc :=
  Qcsum (map (fun wx => fst wx * snd wx) wxs) / Qcsum (map fst wxs).

(** Column [i] of the class averages, each class weighted by its size. *)
Definition weighted_class_mean (df : DataFrame) (ca : GroupFrame) (i : nat) : Qc :=
  weighted_mean
    (map (fun kr => (Qc_of_nat (class_size df (fst kr)), cell_val (nth i (snd kr) NaN)))
         (g_rows ca)).

(** The marks are int64 when every cell from position 4 on is. *)
Definition int_marks (df : DataFrame) : bool := int64_frame (iloc_from 3 df).

(** The total of a row as line 15 computes it, for int64 marks and for
    others. *)
Definition row_total (int : bool) (r : list cell) : cell :=
  if int then sum_int64 (skipn 3 r) else Num (Qcsum (vals (skipn 3 r))).

(** The augmented table as the specification words it: the input with two
    more columns, the row sum from position 4 on (a whole number when the
    marks are) and the row mean over the input's positions 4 to 7. *)
Definition total_of (int : bool) (r : list cell) : cell :=
  if int then Int (Zsum (map int_val (skipn 3 r)))
  else Num (Qcsum (vals (skipn 3 r))).
Definition average_of (r : list cell) : cell := Num (arith_mean (vals (slice 3 7 r))).
Definition spec_augmented (df : DataFrame) : DataFrame :=
  {| columns := columns df ++ ["Total Marks"; "Average Marks"];
     rows := map (fun r => r ++ [total_of (int_marks df) r; average_of r]) (rows df) |}.

(** No row total of int64 marks leaves int64. *)
Definition no_overflow (df : DataFrame) : Prop :=
  int_marks df = true ->
  Forall (fun r => in_int64 (Zsum (map int_val (skipn 3 r)))) (rows df).

(** The subject averages as the specification words them: for each input
    column at positions 4 to 7, in order, its mean over all rows. *)
Definition spec_subject_averages (df : DataFrame) : Series :=
  map (fun j => (nth j (columns df) "", Num (arith_mean (vals (cells_at j (rows df))))))
      [3; 4; 5; 6]%nat.

(** *** Sample tables *)

(** A whole number as an int64 cell and as a float64 cell. *)
Definition n_ (z : Z) : cell := Int z.
Definition f_ (z : Z) : cell := Num (Qc_of_Z z).

Definition header7 : list string :=
  ["Name"; "Roll No"; "Class"; "Maths"; "Science"; "English"; "Hindi"].

(** The three students of the specification's scenario. *)
Definition three_students : DataFrame :=
  {| columns := header7;
     rows := [ [Str "Asha"; n_ 1; Str "A"; n_ 10; n_ 20; n_ 30; n_ 40];
               [Str "Ravi"; n_ 2; Str "A"; n_ 20; n_ 20; n_ 20; n_ 20];
               [Str "Sita"; n_ 3; Str "B"; n_ 0; n_ 0; n_ 0; n_ 0] ] |}.

(** Two subject columns only. *)
Definition two_subjects : DataFrame :=
  {| columns := ["Name"; "Roll No"; "Class"; "Maths"; "Science"];
     rows := [ [Str "Asha"; n_ 1; Str "A"; n_ 10; n_ 20] ] |}.

(** A header and no rows. *)
Definition no_students : DataFrame := {| columns := header7; rows := [] |}.

(** A sheet whose first subject column already bears the label the script
    gives to the total. *)
Definition labelled_total : DataFrame :=
  {| columns := ["Name"; "Roll No"; "Class"; "Total Marks"; "Science"; "English"; "Hindi"];
     rows := [ [Str "Asha"; n_ 1; Str "A"; n_ 10; n_ 20; n_ 30; n_ 40] ] |}.

(** One student whose first mark is the greatest int64 value. *)
Definition huge_mark : DataFrame :=
  {| columns := header7;
     rows := [ [Str "Asha"; n_ 1; Str "A"; n_ 9223372036854775807; n_ 1; n_ 0; n_ 0] ] |}.

(** Two students, the second with a blank Class cell. *)
Definition blank_class : DataFrame :=
  {| columns := header7;
     rows := [ [Str "Asha"; n_ 1; Str "A"; n_ 10; n_ 10; n_ 10; n_ 10];
               [Str "Ravi"; n_ 2; NaN; n_ 20; n_ 20; n_ 20; n_ 20] ] |}.

(** Three students in two classes, one Maths mark missing. *)
Definition missing_maths : DataFrame :=
  {| columns := header7;
     rows := [ [Str "Asha"; n_ 1; Str "A"; f_ 10; n_ 0; n_ 0; n_ 0];
               [Str "Ravi"; n_ 2; Str "A"; NaN; n_ 0; n_ 0; n_ 0];
               [Str "Sita"; n_ 3; Str "B"; f_ 30; n_ 0; n_ 0; n_ 0] ] |}.

(** Two students with marks missing. *)
Definition missing_marks : DataFrame :=
  {| columns := header7;
     rows := [ [Str "Asha"; n_ 1; Str "A"; f_ 10; NaN; f_ 30; f_ 40];
               [Str "Ravi"; n_ 2; Str "A"; NaN; NaN; NaN; NaN] ] |}.

(** Cells with their numbers shown as plain fractions, for comparing computed
    tables. *)
Inductive qcell := QStr (s : string) | QInt (z : Z) | QNum (q : Q) | QNaN.
Definition erase (c : cell) : qcell :=
  match c with
  | Str s => QStr s
  | Int z => QInt z
  | Num q => QNum (this q)
  | NaN => QNaN
  end.

(** The documented input: distinct labels, one cell per label in every row,
    three leading columns and at least four subject columns, numbers from
    position 4 on, and a class in every row. *)
Definition student_table (df : DataFrame) : Prop :=
  wf_frame df /\ (7 <= List.length (columns df))%nat /\
  numeric_from 3 df /\ has_classes df.

(** A number shown with two decimals (nearest hundredth). *)
Definition to_2dp (q : Qc) : Q := Qfloor (this q * 100 + (1 # 2)) # 100.
Definition shown_2dp (c : cell) : option Q :=
  match c with Num q => Some (to_2dp q) | _ => None end.

(** *** The handler seen row by row *)

(** The header after [df[name] = ...]. *)
Definition add_label (cols : list string) (name : string) : list string :=
  match index_of name cols with
  | Some _ => cols
  | None => cols ++ [name]
  end.

(** One row after [df[name] = ...] has given it the value [v]. *)
Definition set_cell (cols : list string) (name : string) (v : cell) (r : list cell)
  : list cell :=
  match index_of name cols with
  | Some i => set_nth i v r
  | None => r ++ [v]
  end.

(** One row after lines 15-16, on a sheet whose marks are all present. *)
Definition augment_row (int : bool) (cols : list string) (r : list cell) : list cell :=
  let r1 := set_cell cols "Total Marks" (row_total int r) r in
  set_cell (add_label cols "Total Marks") "Average Marks" (average_of r1) r1.

(** The sheet after lines 15-16, on a sheet whose marks are all present. *)
Definition augmented (df : DataFrame) : DataFrame :=
  {| columns := add_label (add_label (columns df) "Total Marks") "Average Marks";
     rows := map (augment_row (int_marks df) (columns df)) (rows df) |}.

(** The marks that are present in a list of cells, and cells free of text. *)
Definition present (l : list cell) : list Qc :=
  flat_map (fun c => match c with
                     | Int z => [Qc_of_Z z]
                     | Num q => [q]
                     | _ => []
                     end) l.
Definition no_text (l : list cell) : Prop :=
  Forall (fun c => match c with Str _ => False | _ => True end) l.

(** Total and average of the marks present from position 4 on. *)
Definition total_present (r : list cell) : cell := Num (Qcsum (present (skipn 3 r))).
Definition average_present (r : list cell) : cell :=
  match present (skipn 3 r) with
  | [] => NaN
  | xs => Num (Qcsum xs / Qc_of_nat (List.length xs))
  end.

(** The rows of class [k], in frame order. *)
Definition rows_of_class (df : DataFrame) (k : cell) : list (list cell) :=
  match index_of "Class" (columns df) with
  | Some key => filter (fun r => cell_eqb (nth key r NaN) k) (rows df)
  | None => []
  end.

(** The index of the class averages. *)
Definition class_keys (ca : GroupFrame) : list cell := map fst (g_rows ca).

(** The order of the index. *)
Definition key_le (a b : cell) : Prop := cell_leb a b = true.

(** *** Results in floating point *)

(** [y] is within [eps] of [x]. *)
Definition close (eps x y : Qc) : Prop := x - eps <= y /\ y <= x + eps.

(** Class averages, and subject averages, whose values are within [eps] of
    given ones, entry by entry under the same keys. *)
Definition averages_within (eps : Qc) (ca ca' : GroupFrame) : Prop :=
  Forall2 (fun kr kr' =>
             fst kr' = fst kr /\
             Forall2 (fun c c' => close eps (cell_val c) (cell_val c')) (snd kr) (snd kr'))
          (g_rows ca) (g_rows ca').
Definition series_within (eps : Qc) (sa sa' : Series) : Prop :=
  Forall2 (fun e e' => fst e' = fst e /\ close eps (cell_val (snd e)) (cell_val (snd e')))
          sa sa'.

End Marks.

(** * Properties *)

(** ** Canonical rationals *)

Lemma Qcltb_lt x y : Qcltb x y = true <-> x < y.
Proof.
  unfold Qcltb. destruct (Qclt_le_dec x y) as [H|H]; split; intro K; auto.
  - discriminate.
  - exfalso. exact (Qcle_not_lt _ _ H K).
Qed.

Lemma Qcleb_le x y : Qcleb x y = true <-> x <= y.
Proof.
  unfold Qcleb. destruct (Qclt_le_dec y x) as [H|H]; split; intro K; auto.
  - discriminate.
  - exfalso. exact (Qclt_not_le _ _ H K).
Qed.

Lemma filter_filter {A : Type} (f g : A -> bool) (l : list A) :
  filter g (filter f l) = filter (fun x => f x && g x) l.
Proof.
  induction l as [|a l IH]; simpl; auto.
  destruct (f a) eqn:Fa; simpl.
  - destruct (g a); simpl; now rewrite IH.
  - exact IH.
Qed.

Lemma filter_none {A : Type} (f : A -> bool) (l : list A) :
  (forall x, f x = false) -> filter f l = [].
Proof.
  intro H. induction l as [|a l IH]; simpl; auto. now rewrite H.
Qed.

(** ** int64 and the rationals *)

Lemma wrap64_fits z : in_int64 z -> wrap64 z = z.
Proof.
  unfold in_int64, wrap64. intro H. rewrite Z.mod_small; lia.
Qed.

Lemma Qc_of_Z_plus a b : Qc_of_Z (a + b) = Qc_of_Z a + Qc_of_Z b.
Proof.
  apply Qc_is_canon. unfold Qc_of_Z, Qcplus, Q2Qc. cbn [this].
  rewrite !Qred_correct, inject_Z_plus. reflexivity.
Qed.

Lemma Qc_of_Z_opp a : Qc_of_Z (- a) = - Qc_of_Z a.
Proof.
  apply Qc_is_canon. unfold Qc_of_Z, Qcopp, Q2Qc. cbn [this].
  rewrite !Qred_correct, inject_Z_opp. reflexivity.
Qed.

Lemma Qc_of_Z_minus a b : Qc_of_Z (a - b) = Qc_of_Z a - Qc_of_Z b.
Proof.
  unfold Z.sub, Qcminus. now rewrite Qc_of_Z_plus, Qc_of_Z_opp.
Qed.

Lemma Qc_of_Z_sum l : Qc_of_Z (Zsum l) = Qcsum (map Qc_of_Z l).
Proof.
  induction l as [|z l IH]; simpl; [reflexivity|].
  now rewrite Qc_of_Z_plus, IH.
Qed.

Lemma Qc_of_Z_le a b : (a <= b)%Z -> Qc_of_Z a <= Qc_of_Z b.
Proof.
  intro H. unfold Qcle, Qc_of_Z, Q2Qc. cbn [this].
  rewrite !Qred_correct. now rewrite <- Zle_Qle.
Qed.

(** ** The filter engine *)

Section FilterEngine.

Import Transactions.

Lemma date_leb_le a b : date_leb a b = true <-> date_le a b.
Proof.
  unfold date_leb, date_le. destruct (date_cmp a b); split; intro H;
    try reflexivity; try discriminate; try congruence.
Qed.

Lemma date_cmp_Gt_iff a b :
  date_cmp a b = Gt <->
  (year b < year a \/
   (year a = year b /\ (month b < month a \/
                        (month a = month b /\ day b < day a))))%nat.
Proof.
  unfold date_cmp.
  destruct (Nat.compare_spec (year a) (year b));
    destruct (Nat.compare_spec (month a) (month b));
    destruct (Nat.compare_spec (day a) (day b));
    split; intro K; try discriminate; try reflexivity; try lia.
Qed.

Lemma date_le_trans a b c : date_le a b -> date_le b c -> date_le a c.
Proof.
  unfold date_le. rewrite !date_cmp_Gt_iff. lia.
Qed.

Lemma reversed_range_rejects s e d :
  date_cmp s e = Gt -> date_geb d s && date_leb d e = false.
Proof.
  intro H. unfold date_geb.
  destruct (date_leb s d) eqn:A; [|reflexivity].
  destruct (date_leb d e) eqn:B; [|reflexivity].
  exfalso. apply date_leb_le in A, B.
  exact (date_le_trans _ _ _ A B H).
Qed.

Lemma between_iff l r x : between l r x = true <-> l <= x /\ x <= r.
Proof.
  unfold between. rewrite andb_true_iff, !Qcleb_le. tauto.
Qed.

Lemma between_ordered a1 a2 x :
  (if Qcltb a2 a1 then between a2 a1 x else between a1 a2 x)
  = between a1 a2 x || between a2 a1 x.
Proof.
  destruct (Qcltb a2 a1) eqn:L.
  - apply Qcltb_lt in L.
    destruct (between a1 a2 x) eqn:B; [|reflexivity].
    apply between_iff in B. destruct B as [B1 B2].
    exfalso. apply (Qclt_not_le _ _ L). exact (Qcle_trans _ _ _ B1 B2).
  - assert (a1 <= a2) as Le.
    { apply Qcnot_lt_le. intro K. apply Qcltb_lt in K. congruence. }
    destruct (between a1 a2 x) eqn:B; [reflexivity|]. simpl.
    destruct (between a2 a1 x) eqn:B'; [|reflexivity].
    apply between_iff in B'. destruct B' as [B1 B2].
    assert (between a1 a2 x = true) as K; [|congruence].
    apply between_iff. split.
    + exact (Qcle_trans _ _ _ Le B1).
    + exact (Qcle_trans _ _ _ B2 Le).
Qed.

Lemma amount_filter_filter c l :
  amount_filter c l = filter (amount_okb c) l.
Proof.
  assert (forall l : frame, l = filter (fun _ => true) l) as Id.
  { intro k. induction k as [|a k IH]; simpl; congruence. }
  unfold amount_filter, amount_okb.
  destruct (amount_type c); simpl; [apply Id| |];
    (destruct (filter_condition c); [apply Id|reflexivity|reflexivity|]);
    (destruct (Qcltb (amount2 c) (amount1 c)) eqn:L;
     apply filter_ext; intro r;
     rewrite <- between_ordered, L; reflexivity).
Qed.

Lemma amount_okb_ok c r : amount_okb c r = true <-> amount_ok c r.
Proof.
  unfold amount_okb, amount_ok.
  destruct (amount_type c), (filter_condition c);
    rewrite ?orb_true_iff, ?between_iff, ?Qcltb_lt; tauto.
Qed.

Lemma in_dates_range c r : in_dates c r = true <-> in_date_range c r.
Proof.
  unfold in_dates, in_date_range. destruct (row_date r) as [d|].
  - rewrite andb_true_iff, !date_leb_le. tauto.
  - split; [discriminate|tauto].
Qed.

Lemma keptb_kept c r : keptb c r = true <-> kept c r.
Proof.
  unfold keptb, kept. rewrite andb_true_iff, in_dates_range, amount_okb_ok. tauto.
Qed.

Lemma filtered_keptb df c : fst (filter_engine df c) = filter (keptb c) df.
Proof.
  unfold filter_engine, date_filter. simpl.
  rewrite amount_filter_filter, filter_filter. reflexivity.
Qed.


Lemma series_sum_fits col :
  sum_fits col -> value (series_sum col) = Qcsum (map value col).
Proof.
  unfold sum_fits, series_sum. intro H.
  destruct (forallb is_int64 col) eqn:E; [|reflexivity].
  cbn [value]. rewrite (wrap64_fits _ (H eq_refl)), Qc_of_Z_sum, map_map.
  f_equal. apply map_ext_in. intros n Hn.
  rewrite forallb_forall in E. specialize (E n Hn).
  destruct n; [reflexivity|discriminate].
Qed.

Lemma number_sub_fits a b :
  difference_fits a b ->
  value (number_sub (series_sum a) (series_sum b))
  = value (series_sum a) - value (series_sum b).
Proof.
  unfold difference_fits, series_sum. intro H.
  destruct (forallb is_int64 a) eqn:Ea; [|reflexivity].
  destruct (forallb is_int64 b) eqn:Eb; [|reflexivity].
  cbn [number_sub value]. rewrite (wrap64_fits _ (H eq_refl eq_refl)).
  apply Qc_of_Z_minus.
Qed.

(** C4, as the code has it. The total credit and the total debit are the
    sums of the two amount columns over the filtered rows whenever an int64
    column's sum stays within int64, the net flow is their difference
    whenever an int64 difference stays within int64, and over an empty
    result all three are 0. *)
Theorem metrics_of_filtered (df : frame) (c : criteria) :
  let filtered := fst (filter_engine df c) in
  let m := snd (filter_engine df c) in
  (sum_fits (map credit_cell filtered) ->
   total_credit m = Qcsum (map credit_amount filtered)) /\
  (sum_fits (map debit_cell filtered) ->
   total_debit m = Qcsum (map debit_amount filtered)) /\
  (difference_fits (map credit_cell filtered) (map debit_cell filtered) ->
   net_flow m = total_credit m - total_debit m) /\
  (filtered = [] -> total_credit m = 0 /\ total_debit m = 0 /\ net_flow m = 0).
Proof.
  cbv zeta. unfold filter_engine. cbn [fst snd]. unfold key_metrics.
  cbn [total_credit total_debit net_flow].
  split; [|split; [|split]].
  - intro H. rewrite (series_sum_fits _ H). unfold credit_amount.
    now rewrite map_map.
  - intro H. rewrite (series_sum_fits _ H). unfold debit_amount.
    now rewrite map_map.
  - apply number_sub_fits.
  - intro H. rewrite H. cbn.
    repeat split; apply Qc_is_canon; reflexivity.
Qed.

(** C6. With the start date after the end date the bounds are used as given:
    no row passes the date test, the result is empty and the metrics are 0;
    nothing is raised. *)
Theorem reversed_dates_empty (df : frame) (c : criteria) :
  date_cmp (start_date c) (end_date c) = Gt ->
  filter_engine df c = ([], {| total_credit := 0; total_debit := 0; net_flow := 0 |}).
Proof.
  intro H. unfold filter_engine.
  assert (date_filter c df = []) as E.
  { unfold date_filter. apply filter_none. intro r.
    destruct (row_date r); [|reflexivity].
    apply reversed_range_rejects. exact H. }
  rewrite E, amount_filter_filter. simpl. unfold key_metrics. simpl.
  repeat f_equal; apply Qc_is_canon; reflexivity.
Qed.

(** C7. Under the condition Between, exchanging the two bounds changes
    neither the filtered table nor the metrics, for every table, date range
    and transaction type, whichever of the two bounds is the larger. *)
Theorem between_swap (df : frame) (c : criteria) :
  filter_condition c = Between ->
  filter_engine df (swap_bounds c) = filter_engine df c.
Proof.
  intros HB. unfold filter_engine.
  assert (amount_filter (swap_bounds c) (date_filter (swap_bounds c) df)
          = amount_filter c (date_filter c df)) as E.
  { rewrite !amount_filter_filter. unfold date_filter. simpl.
    apply filter_ext. intro r. unfold amount_okb. simpl. rewrite HB.
    destruct (amount_type c); auto using orb_comm. }
  rewrite E. reflexivity.
Qed.

Lemma metrics_of_filtered_witness :
  let filtered := fst (filter_engine sample_txns between_criteria) in
  let m := snd (filter_engine sample_txns between_criteria) in
  total_credit m = Qcsum (map credit_amount filtered) /\
  total_debit m = Qcsum (map debit_amount filtered) /\
  net_flow m = total_credit m - total_debit m /\
  (fst (filter_engine sample_txns reversed_criteria) = [] /\
   total_credit (snd (filter_engine sample_txns reversed_criteria)) = 0).
Proof.
  pose proof (metrics_of_filtered sample_txns between_criteria) as H.
  pose proof (metrics_of_filtered sample_txns reversed_criteria) as H'.
  cbv zeta in *. destruct H as [H1 [H2 [H3 _]]]. destruct H' as [_ [_ [_ H4]]].
  split; [apply H1; intros _; unfold in_int64; vm_compute; split; [discriminate|reflexivity]|].
  split; [apply H2; intros _; unfold in_int64; vm_compute; split; [discriminate|reflexivity]|].
  split; [apply H3; intros _ _; unfold in_int64; vm_compute; split; [discriminate|reflexivity]|].
  split; [reflexivity|]. apply H4. reflexivity.
Defined.

(** C4, as stated, fails on an int64 credit column whose sum passes
    2^63 - 1: the two credits 9223372036854775807 and 1 are both shown and
    the total credit and the net flow are -9223372036854775808.  With a
    debit of 1 besides, the net flow is 9223372036854775807, which is not
    the total credit shown minus the total debit shown. *)
Lemma int64_total_wraps :
  let c := mkcriteria (mkdate 2024 1 1) (mkdate 2024 1 2) All AnyAmount 0 0 in
  (let filtered := fst (filter_engine huge_credits c) in
   let m := snd (filter_engine huge_credits c) in
   filtered = huge_credits /\
   Qcsum (map credit_amount filtered) = Qc_of_Z 9223372036854775808 /\
   total_credit m = Qc_of_Z (-9223372036854775808) /\
   net_flow m = Qc_of_Z (-9223372036854775808) /\
   total_credit m <> Qcsum (map credit_amount filtered)) /\
  (let filtered := fst (filter_engine huge_net c) in
   let m := snd (filter_engine huge_net c) in
   filtered = huge_net /\
   total_credit m = Qc_of_Z (-9223372036854775808) /\
   total_debit m = Qc_of_Z 1 /\
   net_flow m = Qc_of_Z 9223372036854775807 /\
   net_flow m <> total_credit m - total_debit m).
Proof.
  cbv zeta. split.
  - split; [reflexivity|].
    split; [apply Qc_is_canon; reflexivity|].
    split; [apply Qc_is_canon; reflexivity|].
    split; [apply Qc_is_canon; reflexivity|].
    intro K. apply (f_equal this) in K. vm_compute in K. discriminate.
  - split; [reflexivity|].
    split; [apply Qc_is_canon; reflexivity|].
    split; [apply Qc_is_canon; reflexivity|].
    split; [apply Qc_is_canon; reflexivity|].
    intro K. apply (f_equal this) in K. vm_compute in K. discriminate.
Qed.

Lemma reversed_dates_empty_witness :
  date_cmp (start_date reversed_criteria) (end_date reversed_criteria) = Gt /\
  filter_engine sample_txns reversed_criteria
  = ([], {| total_credit := 0; total_debit := 0; net_flow := 0 |}).
Proof.
  split; [reflexivity|].
  apply (reversed_dates_empty sample_txns reversed_criteria). reflexivity.
Defined.

Lemma between_swap_witness :
  filter_condition between_criteria = Between /\
  filter_engine sample_txns (swap_bounds between_criteria)
  = filter_engine sample_txns between_criteria.
Proof.
  split; [reflexivity|].
  apply (between_swap sample_txns between_criteria). reflexivity.
Defined.

End FilterEngine.

(** ** The aggregator *)

Section Aggregator.

Import Marks.

Ltac qc_data := repeat first [ apply Qc_is_canon; reflexivity | reflexivity | f_equal ].

(** The sample sheets have the documented shape. *)
Lemma three_students_shape : student_table three_students.
Proof.
  split; [split|split; [|split]].
  - repeat (constructor; [simpl; intuition discriminate|]). constructor.
  - repeat constructor.
  - simpl. lia.
  - repeat constructor.
  - exists [Str "A"; Str "A"; Str "B"]. split; reflexivity.
Qed.

Lemma labelled_total_shape : student_table labelled_total.
Proof.
  split; [split|split; [|split]].
  - repeat (constructor; [simpl; intuition discriminate|]). constructor.
  - repeat constructor.
  - simpl. lia.
  - repeat constructor.
  - exists [Str "A"]. split; reflexivity.
Qed.

(** *** The result monad *)

Lemma mapM_map {A B : Type} (f : A -> result B) (g : A -> B) (l : list A) :
  (forall a, In a l -> f a = Ok (g a)) -> mapM f l = Ok (map g l).
Proof.
  induction l as [|a l IH]; intro H; simpl; [reflexivity|].
  rewrite (H a (or_introl eq_refl)). simpl.
  rewrite IH; [reflexivity|]. intros b Hb. apply H. now right.
Qed.

(** *** Reductions over numeric cells *)

Lemma numeric_vals l : Forall is_num l -> numeric l = Ok (vals l).
Proof.
  induction 1 as [|c l Hc _ IH]; simpl; [reflexivity|].
  destruct c; simpl in Hc; try contradiction; rewrite IH; reflexivity.
Qed.

Lemma sum_cells_num l :
  Forall is_num l -> sum_cells l = Ok (Num (Qcsum (vals l))).
Proof.
  intro H. unfold sum_cells. rewrite (numeric_vals l H). reflexivity.
Qed.

Lemma mean_cells_num l :
  Forall is_num l -> l <> [] -> mean_cells l = Ok (Num (arith_mean (vals l))).
Proof.
  intros H Hne. unfold mean_cells. rewrite (numeric_vals l H). simpl.
  destruct l as [|c l]; [congruence|]. reflexivity.
Qed.

(** *** Labels *)

Lemma index_of_In name cols : In name cols -> exists j, index_of name cols = Some j.
Proof.
  induction cols as [|c cols IH]; simpl; [tauto|].
  intros [->|H].
  - rewrite String.eqb_refl. eauto.
  - destruct (String.eqb c name); [eauto|].
    destruct (IH H) as [j ->]. simpl. eauto.
Qed.

Lemma index_of_None name cols : ~ In name cols -> index_of name cols = None.
Proof.
  induction cols as [|c cols IH]; simpl; [reflexivity|].
  intro H. destruct (String.eqb_spec c name) as [->|_]; [tauto|].
  rewrite IH; [reflexivity|tauto].
Qed.

Lemma index_of_Some name cols j :
  index_of name cols = Some j -> nth_error cols j = Some name.
Proof.
  revert j. induction cols as [|c cols IH]; simpl; intros j H; [discriminate|].
  destruct (String.eqb_spec c name) as [->|_].
  - injection H as <-. reflexivity.
  - destruct (index_of name cols) as [i|]; simpl in H; [|discriminate].
    injection H as <-. simpl. now apply IH.
Qed.

Lemma setitem_columns df name values :
  columns (setitem df name values)
  = match index_of name (columns df) with
    | Some _ => columns df
    | None => columns df ++ [name]
    end.
Proof. unfold setitem. destruct (index_of name (columns df)); reflexivity. Qed.

Lemma setitem_columns_In df name values x :
  In x (columns df) -> In x (columns (setitem df name values)).
Proof.
  rewrite setitem_columns. destruct (index_of name (columns df)); auto.
  intro H. apply in_or_app. now left.
Qed.

Lemma setitem_no_rows df name :
  rows df = [] -> rows (setitem df name []) = [].
Proof.
  intro H. unfold setitem. destruct (index_of name (columns df)); simpl;
    rewrite H; reflexivity.
Qed.

Lemma mapM_total {A B : Type} (f : A -> result B) (l : list A) :
  (forall a, In a l -> exists b, f a = Ok b) -> exists bs, mapM f l = Ok bs.
Proof.
  induction l as [|a l IH]; intro H; simpl; [eauto|].
  destruct (H a (or_introl eq_refl)) as [b ->]. simpl.
  destruct IH as [bs ->]; [|simpl; eauto].
  intros x Hx. apply H. now right.
Qed.

Lemma slice_incl {A : Type} (a b : nat) (l : list A) x :
  In x (slice a b l) -> In x l.
Proof.
  unfold slice. intro H.
  rewrite <- (firstn_skipn a l). apply in_or_app. right.
  rewrite <- (firstn_skipn (b - a) (skipn a l)). apply in_or_app. now left.
Qed.

Lemma map_snd_combine_seq {A B : Type} (g : A -> B) (l : list A) (a : nat) :
  map (fun jn : nat * A => g (snd jn)) (combine (seq a (List.length l)) l) = map g l.
Proof.
  revert a. induction l as [|x l IH]; intro a; simpl; [reflexivity|].
  now rewrite IH.
Qed.

(** *** The empty table *)

Lemma augment_no_rows df :
  rows df = [] ->
  augment df = Ok (setitem (setitem df "Total Marks" []) "Average Marks" []).
Proof.
  intro H.
  assert (sum_axis1 (iloc_from 3 df) = Ok []) as E.
  { unfold sum_axis1. cbn [iloc_from rows]. rewrite H.
    destruct (int64_frame _); reflexivity. }
  unfold augment. rewrite E. cbn [bind]. unfold mean_axis1. cbn [iloc rows].
  rewrite (setitem_no_rows df "Total Marks" H). reflexivity.
Qed.

Lemma slice_empty {A : Type} (l : list A) :
  slice 3 7 l = [] <-> (List.length l <= 3)%nat.
Proof.
  unfold slice. split.
  - intro H. destruct (skipn 3 l) as [|x t] eqn:E; [|discriminate].
    apply (f_equal (@List.length A)) in E. rewrite length_skipn in E.
    simpl in E. lia.
  - intro H. now rewrite skipn_all2.
Qed.

(** C5, as the code has it. On a table with a Class column and no rows the
    handler raises nothing; the augmented table and the class averages have
    no rows; the subject averages hold one missing value (NaN) for each
    column at positions 4 to 7 of the augmented table, so they are not empty
    when, and only when, the augmented table has more than three columns. *)
Theorem empty_table_outputs (df : DataFrame) :
  rows df = [] ->
  In "Class" (columns df) ->
  exists aug ca sa,
    aggregate df = Ok (aug, ca, sa) /\
    rows aug = [] /\
    g_rows ca = [] /\
    sa = map (fun name => (name, NaN)) (slice 3 7 (columns aug)) /\
    (sa <> [] <-> (3 < List.length (columns aug))%nat).
Proof.
  intros Hrows Hclass.
  set (aug := setitem (setitem df "Total Marks" []) "Average Marks" []).
  assert (rows aug = []) as Haug.
  { apply setitem_no_rows, setitem_no_rows, Hrows. }
  assert (In "Class" (columns aug)) as Hc.
  { apply setitem_columns_In, setitem_columns_In, Hclass. }
  destruct (index_of_In _ _ Hc) as [key Hkey].
  destruct (mapM_total (label_index (columns aug)) (slice 3 7 (columns aug)))
    as [idx Hidx].
  { intros name Hn. apply slice_incl, index_of_In in Hn.
    destruct Hn as [j Hj]. unfold label_index. rewrite Hj. eauto. }
  exists aug, {| g_columns := slice 3 7 (columns aug); g_rows := [] |},
    (map (fun name => (name, NaN)) (slice 3 7 (columns aug))).
  split; [|split; [exact Haug|split; [reflexivity|split; [reflexivity|]]]].
  - unfold aggregate. rewrite (augment_no_rows df Hrows). fold aug. simpl.
    unfold class_averages, groupby_mean, label_index at 1. rewrite Hkey. simpl.
    rewrite Hidx. simpl. unfold group_keys. rewrite Haug. simpl.
    unfold subject_averages, mean_axis0. simpl. rewrite Haug. simpl.
    rewrite (mapM_map _ (fun jn => (snd jn, NaN))); [|reflexivity].
    rewrite (map_snd_combine_seq (fun name => (name, NaN))). reflexivity.
  - pose proof (slice_empty (columns aug)) as E.
    destruct (slice 3 7 (columns aug)) as [|x t] eqn:Es; cbn [map].
    + split; [congruence|]. intro K. destruct E as [E _]. specialize (E eq_refl). lia.
    + split; [|discriminate]. intros _.
      destruct (Nat.lt_ge_cases 3 (List.length (columns aug))) as [K|K]; [exact K|].
      destruct E as [_ E]. specialize (E K). discriminate.
Qed.

Lemma empty_table_outputs_witness :
  rows no_students = [] /\ In "Class" (columns no_students) /\
  exists aug ca sa,
    aggregate no_students = Ok (aug, ca, sa) /\
    rows aug = [] /\
    g_rows ca = [] /\
    sa = map (fun name => (name, NaN)) (slice 3 7 (columns aug)) /\
    (sa <> [] <-> (3 < List.length (columns aug))%nat).
Proof.
  split; [reflexivity|]. split; [simpl; tauto|].
  apply (empty_table_outputs no_students); [reflexivity|simpl; tauto].
Defined.

(** C5, as stated, fails on the header-only sheet: the subject averages are
    four NaN entries, neither empty nor free of NaN. *)
Lemma empty_table_surfaces_nan :
  rows no_students = [] /\
  exists aug ca sa,
    aggregate no_students = Ok (aug, ca, sa) /\
    sa = [("Maths", NaN); ("Science", NaN); ("English", NaN); ("Hindi", NaN)] /\
    sa <> [] /\ In NaN (map snd sa).
Proof.
  split; [reflexivity|].
  destruct (aggregate no_students) as [[[aug ca] sa]|e] eqn:E;
    vm_compute in E; [|discriminate].
  exists aug, ca, sa. split; [reflexivity|].
  injection E as <- <- <-.
  split; [reflexivity|]. split; [discriminate|]. simpl. tauto.
Qed.

(** *** The specification's scenario *)

(** C9. On the three-student table the totals are 100, 80, 0, the averages
    25, 20, 0, class A averages 15, 20, 25, 30, class B averages 0, and the
    subject averages are 10, 40/3, 50/3, 20, shown with two decimals as
    10, 13.33, 16.67, 20. *)
Theorem three_students_scenario :
  exists aug ca sa,
    aggregate three_students = Ok (aug, ca, sa) /\
    column_of "Total Marks" aug = Some [n_ 100; n_ 80; n_ 0] /\
    column_of "Average Marks" aug = Some [f_ 25; f_ 20; f_ 0] /\
    g_rows ca = [(Str "A", [f_ 15; f_ 20; f_ 25; f_ 30]);
                 (Str "B", [f_ 0; f_ 0; f_ 0; f_ 0])] /\
    sa = [("Maths", f_ 10); ("Science", Num (Qc_of_Z 40 / Qc_of_Z 3));
          ("English", Num (Qc_of_Z 50 / Qc_of_Z 3)); ("Hindi", f_ 20)] /\
    map (fun e => shown_2dp (snd e)) sa
    = [Some (1000 # 100); Some (1333 # 100); Some (1667 # 100); Some (2000 # 100)]%Q.
Proof.
  destruct (aggregate three_students) as [[[aug ca] sa]|e] eqn:E;
    vm_compute in E; [|discriminate].
  exists aug, ca, sa. split; [reflexivity|].
  injection E as <- <- <-.
  repeat split; vm_compute; qc_data.
Qed.

(** *** Slices and column assignment *)

Lemma In_firstn {A : Type} (n : nat) (l : list A) x : In x (firstn n l) -> In x l.
Proof.
  intro H. rewrite <- (firstn_skipn n l). apply in_or_app. now left.
Qed.

Lemma Forall_firstn {A : Type} (P : A -> Prop) (n : nat) (l : list A) :
  Forall P l -> Forall P (firstn n l).
Proof.
  rewrite !Forall_forall. intros H x Hx. apply H. exact (In_firstn _ _ _ Hx).
Qed.

Lemma slice_app {A : Type} (a b : nat) (l x : list A) :
  (b <= List.length l)%nat -> slice a b (l ++ x) = slice a b l.
Proof.
  intro H. unfold slice. rewrite skipn_app, firstn_app, length_skipn.
  replace (b - a - (List.length l - a))%nat with 0%nat by lia.
  rewrite firstn_0. apply app_nil_r.
Qed.

Lemma length_slice {A : Type} (a b : nat) (l : list A) :
  (b <= List.length l)%nat -> List.length (slice a b l) = (b - a)%nat.
Proof.
  intro H. unfold slice. rewrite length_firstn, length_skipn. lia.
Qed.

Lemma combine_map_map {A B C : Type} (f : A -> B) (g : A -> C) (l : list A) :
  combine (map f l) (map g l) = map (fun x => (f x, g x)) l.
Proof.
  induction l as [|x l IH]; simpl; [reflexivity|]. now rewrite IH.
Qed.

Lemma setitem_fresh df name (f : list cell -> cell) :
  ~ In name (columns df) ->
  setitem df name (map f (rows df))
  = {| columns := columns df ++ [name];
       rows := map (fun r => r ++ [f r]) (rows df) |}.
Proof.
  intro H. unfold setitem. rewrite (index_of_None _ _ H). f_equal.
  rewrite <- (map_id (rows df)) at 1. rewrite combine_map_map, map_map.
  reflexivity.
Qed.

Lemma Qc_of_nat_S n : Qc_of_nat (S n) = Qc_of_nat n + 1.
Proof.
  apply Qc_is_canon. unfold Qc_of_nat, Qcplus, Q2Qc. cbn [this].
  rewrite !Qred_correct, Nat2Z.inj_succ. unfold Z.succ.
  rewrite inject_Z_plus. reflexivity.
Qed.

Lemma Qc_of_nat_0 : Qc_of_nat 0 = 0.
Proof. apply Qc_is_canon. reflexivity. Qed.

(** *** Totals and averages, row by row *)

Lemma row_total_num int r : is_num (row_total int r).
Proof. destruct int; exact I. Qed.

Lemma int_marks_row df r :
  int_marks df = true -> In r (rows df) -> forallb is_int (skipn 3 r) = true.
Proof.
  unfold int_marks, int64_frame. cbn [iloc_from columns rows].
  destruct (skipn 3 (columns df)); [discriminate|].
  intros H Hr. rewrite forallb_forall in H. apply H. now apply in_map.
Qed.

Lemma int_vals l : forallb is_int l = true -> Qc_of_Z (Zsum (map int_val l)) = Qcsum (vals l).
Proof.
  intro H. rewrite Qc_of_Z_sum. unfold vals. rewrite map_map. f_equal.
  apply map_ext_in. intros c Hc. rewrite forallb_forall in H.
  specialize (H c Hc). destruct c; try discriminate. reflexivity.
Qed.

Lemma row_total_exact df r :
  no_overflow df -> In r (rows df) ->
  row_total (int_marks df) r = total_of (int_marks df) r.
Proof.
  intros H Hr. unfold row_total, total_of, sum_int64, no_overflow in *.
  destruct (int_marks df); [|reflexivity].
  specialize (H eq_refl). rewrite Forall_forall in H.
  now rewrite (wrap64_fits _ (H r Hr)).
Qed.

Lemma total_of_val df r :
  In r (rows df) -> cell_val (total_of (int_marks df) r) = Qcsum (vals (skipn 3 r)).
Proof.
  intro Hr. unfold total_of. destruct (int_marks df) eqn:E; [|reflexivity].
  cbn [cell_val]. apply int_vals. exact (int_marks_row df r E Hr).
Qed.

Lemma totals_ok df :
  numeric_from 3 df ->
  sum_axis1 (iloc_from 3 df) = Ok (map (row_total (int_marks df)) (rows df)).
Proof.
  intro H. unfold sum_axis1. fold (int_marks df).
  destruct (int_marks df); cbn [iloc_from rows row_total].
  - now rewrite map_map.
  - rewrite (mapM_map _ (fun s => Num (Qcsum (vals s)))).
    + now rewrite map_map.
    + intros s Hs. apply in_map_iff in Hs. destruct Hs as [r [<- Hr]].
      apply sum_cells_num. unfold numeric_from in H. rewrite Forall_forall in H.
      now apply H.
Qed.

Lemma average_wide r :
  Forall is_num (skipn 3 r) -> (3 < List.length r)%nat ->
  mean_cells (slice 3 7 r) = Ok (average_of r).
Proof.
  intros Hn Hl. apply mean_cells_num.
  - unfold slice. now apply Forall_firstn.
  - intro E.
    assert (List.length (slice 3 7 r) = Nat.min 4 (List.length r - 3)) as L.
    { unfold slice. now rewrite length_firstn, length_skipn. }
    rewrite E in L. change (0 = Nat.min 4 (List.length r - 3))%nat in L. lia.
Qed.

Lemma average_single_subject r t :
  Forall is_num (skipn 3 r) -> List.length r = 4%nat ->
  is_num t -> cell_val t = Qcsum (vals (skipn 3 r)) ->
  mean_cells (slice 3 7 (r ++ [t])) = Ok (average_of r).
Proof.
  intros Hn Hl Ht Hv.
  destruct r as [|c0 [|c1 [|c2 [|c3 [|c4 r]]]]]; try discriminate.
  assert (Forall is_num [c3; t]) as Hn'.
  { simpl in Hn. inversion Hn; subst. repeat constructor; assumption. }
  change (slice 3 7 ([c0; c1; c2; c3] ++ [t])) with [c3; t].
  rewrite (mean_cells_num _ Hn') by discriminate.
  unfold average_of, arith_mean. f_equal. f_equal.
  change (vals (slice 3 7 [c0; c1; c2; c3])) with [cell_val c3].
  change (vals [c3; t]) with [cell_val c3; cell_val t].
  rewrite Hv. cbn. rewrite !Qc_of_nat_S, Qc_of_nat_0.
  field. split; discriminate.
Qed.

Lemma Forall_skipn_app (P : cell -> Prop) n (r : list cell) v :
  Forall P (skipn n r) -> P v -> Forall P (skipn n (r ++ [v])).
Proof.
  intros H Hv. rewrite skipn_app. apply Forall_app. split; [exact H|].
  destruct (n - List.length r)%nat as [|[|k]]; simpl; auto.
Qed.

Lemma mapM_map_map {A B C : Type} (f : B -> result C) (h : A -> B) (g : A -> C) l :
  (forall a, In a l -> f (h a) = Ok (g a)) -> mapM f (map h l) = Ok (map g l).
Proof.
  induction l as [|a l IH]; intro H; simpl; [reflexivity|].
  rewrite (H a (or_introl eq_refl)). simpl.
  rewrite IH; [reflexivity|]. intros b Hb. apply H. now right.
Qed.

Lemma row_numeric df r : numeric_from 3 df -> In r (rows df) -> Forall is_num (skipn 3 r).
Proof.
  unfold numeric_from. rewrite Forall_forall. auto.
Qed.

Lemma row_length df r :
  rows_wf df -> In r (rows df) -> List.length r = List.length (columns df).
Proof.
  unfold rows_wf. rewrite Forall_forall. auto.
Qed.

(** C1, as the code has it. On a table with exactly 4 or at least 7 columns,
    numbers from position 4 on, no column already labelled "Total Marks" or
    "Average Marks", and no row total of int64 marks beyond int64, the
    augmented table is the input, rows in order, with two more columns: the
    row sum from position 4 to the end, and the row mean over the input's
    positions 4 to 7. *)
Theorem augment_appends_total_and_average (df : DataFrame) :
  rows_wf df ->
  (List.length (columns df) = 4 \/ 7 <= List.length (columns df))%nat ->
  numeric_from 3 df ->
  ~ In "Total Marks" (columns df) ->
  ~ In "Average Marks" (columns df) ->
  no_overflow df ->
  augment df = Ok (spec_augmented df).
Proof.
  intros Hwf Hshape Hnum HT HA Hfit.
  unfold augment. rewrite (totals_ok df Hnum). cbn [bind].
  rewrite (map_ext_in _ (total_of (int_marks df)))
    by (intros r Hr; now apply row_total_exact).
  rewrite (setitem_fresh df "Total Marks" (total_of (int_marks df)) HT).
  unfold mean_axis1. cbn [iloc rows]. rewrite map_map.
  rewrite (mapM_map_map _ _ average_of).
  - cbn [bind]. unfold setitem. cbn [columns rows]. rewrite index_of_None.
    + unfold spec_augmented. f_equal. f_equal.
      * now rewrite <- app_assoc.
      * rewrite combine_map_map, map_map. apply map_ext. intro r. cbn [fst snd].
        now rewrite <- app_assoc.
    + intro K. apply in_app_or in K. destruct K as [K|[K|[]]]; [tauto|].
      discriminate.
  - intros r Hr.
    pose proof (row_numeric df r Hnum Hr) as Hn.
    pose proof (row_length df r Hwf Hr) as Hl.
    destruct Hshape as [H4|H7].
    + apply average_single_subject; [exact Hn|congruence| |].
      * unfold total_of. destruct (int_marks df); exact I.
      * now apply total_of_val.
    + rewrite slice_app by lia. apply average_wide; [exact Hn|lia].
Qed.

Lemma augment_appends_total_and_average_witness :
  augment three_students = Ok (spec_augmented three_students).
Proof.
  apply (augment_appends_total_and_average three_students).
  - repeat constructor.
  - right. simpl. lia.
  - repeat constructor.
  - simpl. intros [K|[K|[K|[K|[K|[K|[K|[]]]]]]]]; discriminate.
  - simpl. intros [K|[K|[K|[K|[K|[K|[K|[]]]]]]]]; discriminate.
  - intros _. cbn [three_students rows].
    repeat (apply Forall_cons; [vm_compute; split; [discriminate|reflexivity]|]).
    apply Forall_nil.
Defined.

(** C1, as stated, fails on a table with two subject columns: the average is
    taken over the two marks and the total just added, 20 instead of 15.  It
    also fails on int64 marks whose sum leaves int64: for the marks
    9223372036854775807, 1, 0, 0 the total is -9223372036854775808.  And it
    fails on a sheet with a column already labelled "Total Marks": that
    column is overwritten and one column only is added. *)
Lemma average_includes_total :
  ((4 <= List.length (columns two_subjects))%nat /\
   numeric_from 3 two_subjects /\
   exists aug,
     augment two_subjects = Ok aug /\
     column_of "Average Marks" aug = Some [f_ 20] /\
     column_of "Average Marks" (spec_augmented two_subjects) = Some [f_ 15] /\
     aug <> spec_augmented two_subjects) /\
  ((4 <= List.length (columns huge_mark))%nat /\
   numeric_from 3 huge_mark /\
   exists aug,
     augment huge_mark = Ok aug /\
     column_of "Total Marks" aug = Some [n_ (-9223372036854775808)] /\
     column_of "Total Marks" (spec_augmented huge_mark)
     = Some [n_ 9223372036854775808] /\
     aug <> spec_augmented huge_mark) /\
  ((4 <= List.length (columns labelled_total))%nat /\
   numeric_from 3 labelled_total /\
   exists aug,
     augment labelled_total = Ok aug /\
     List.length (columns aug) = 8%nat /\
     List.length (columns (spec_augmented labelled_total)) = 9%nat /\
     aug <> spec_augmented labelled_total).
Proof.
  split; [|split].
  - split; [simpl; lia|]. split; [repeat constructor|].
    destruct (augment two_subjects) as [aug|e] eqn:E; vm_compute in E; [|discriminate].
    exists aug. split; [reflexivity|]. injection E as <-.
    split; [vm_compute; qc_data|]. split; [vm_compute; qc_data|].
    intro K. apply (f_equal (fun d => map (map erase) (rows d))) in K.
    vm_compute in K. discriminate.
  - split; [simpl; lia|]. split; [repeat constructor|].
    destruct (augment huge_mark) as [aug|e] eqn:E; vm_compute in E; [|discriminate].
    exists aug. split; [reflexivity|]. injection E as <-.
    split; [vm_compute; qc_data|]. split; [vm_compute; qc_data|].
    intro K. apply (f_equal (fun d => map (map erase) (rows d))) in K.
    vm_compute in K. discriminate.
  - split; [simpl; lia|]. split; [repeat constructor|].
    destruct (augment labelled_total) as [aug|e] eqn:E; vm_compute in E; [|discriminate].
    exists aug. split; [reflexivity|]. injection E as <-.
    split; [reflexivity|]. split; [reflexivity|].
    intro K. apply (f_equal (fun d => List.length (columns d))) in K.
    vm_compute in K. discriminate.
Qed.

(** *** Reading a column back after an assignment *)

Lemma nth_set_nth_same i v r d :
  (i < List.length r)%nat -> nth i (set_nth i v r) d = v.
Proof.
  revert i. induction r as [|c r IH]; intros i H; simpl in H; [lia|].
  destruct i; simpl; [reflexivity|]. apply IH. lia.
Qed.

Lemma nth_set_nth_other i j v r d :
  i <> j -> nth j (set_nth i v r) d = nth j r d.
Proof.
  revert i j. induction r as [|c r IH]; intros i j H; simpl.
  - now destruct i.
  - destruct i, j; simpl; try reflexivity; try congruence.
    apply IH. congruence.
Qed.

Lemma length_set_nth i v r : List.length (set_nth i v r) = List.length r.
Proof.
  revert i. induction r as [|c r IH]; intro i; simpl; [now destruct i|].
  destruct i; simpl; [reflexivity|]. now rewrite IH.
Qed.

Lemma index_of_lt name cols i :
  index_of name cols = Some i -> (i < List.length cols)%nat.
Proof.
  intro H. apply index_of_Some in H. apply nth_error_Some. congruence.
Qed.

Lemma index_of_app_fresh name cols :
  ~ In name cols -> index_of name (cols ++ [name]) = Some (List.length cols).
Proof.
  induction cols as [|c cols IH]; simpl; intro H.
  - now rewrite String.eqb_refl.
  - destruct (String.eqb_spec c name) as [->|_]; [tauto|].
    rewrite IH; [reflexivity|tauto].
Qed.

Lemma index_of_app_other name name' cols :
  name' <> name -> index_of name' (cols ++ [name]) = index_of name' cols.
Proof.
  intro H. induction cols as [|c cols IH]; simpl.
  - destruct (String.eqb_spec name name'); [congruence|reflexivity].
  - destruct (String.eqb c name'); [reflexivity|]. now rewrite IH.
Qed.

Lemma cells_at_zip_new (h : list cell * cell -> list cell) j rs vs :
  List.length vs = List.length rs ->
  (forall r v, In r rs -> nth j (h (r, v)) NaN = v) ->
  cells_at j (map h (combine rs vs)) = vs.
Proof.
  revert vs. induction rs as [|r rs IH]; intros [|v vs] Hl H; simpl in *;
    try discriminate; [reflexivity|].
  rewrite H by auto. f_equal. apply IH; [lia|]. intros. apply H. now right.
Qed.

Lemma cells_at_zip_old (h : list cell * cell -> list cell) j rs vs :
  List.length vs = List.length rs ->
  (forall r v, In r rs -> nth j (h (r, v)) NaN = nth j r NaN) ->
  cells_at j (map h (combine rs vs)) = cells_at j rs.
Proof.
  revert vs. induction rs as [|r rs IH]; intros [|v vs] Hl H; simpl in *;
    try discriminate; [reflexivity|].
  rewrite H by auto. f_equal. apply IH; [lia|]. intros. apply H. now right.
Qed.

Lemma column_of_setitem_same df name vs :
  rows_wf df -> List.length vs = List.length (rows df) ->
  column_of name (setitem df name vs) = Some vs.
Proof.
  intros Hwf Hl. unfold column_of, setitem.
  destruct (index_of name (columns df)) as [i|] eqn:E; simpl.
  - rewrite E. simpl. f_equal. apply cells_at_zip_new; [exact Hl|].
    intros r v Hr. simpl. apply nth_set_nth_same.
    rewrite (row_length df r Hwf Hr). exact (index_of_lt _ _ _ E).
  - assert (~ In name (columns df)) as Hn.
    { intro K. apply index_of_In in K. destruct K as [j K]. congruence. }
    rewrite (index_of_app_fresh _ _ Hn). simpl. f_equal.
    apply cells_at_zip_new; [exact Hl|].
    intros r v Hr. simpl. rewrite <- (row_length df r Hwf Hr).
    apply nth_middle.
Qed.

Lemma column_of_setitem_other df name name' vs :
  name' <> name -> rows_wf df -> List.length vs = List.length (rows df) ->
  column_of name' (setitem df name vs) = column_of name' df.
Proof.
  intros Hne Hwf Hl. unfold column_of, setitem.
  destruct (index_of name (columns df)) as [i|] eqn:E; simpl.
  - destruct (index_of name' (columns df)) as [j|] eqn:E'; simpl; [|reflexivity].
    f_equal. apply cells_at_zip_old; [exact Hl|].
    intros r v _. simpl. apply nth_set_nth_other. intros ->.
    apply index_of_Some in E, E'. congruence.
  - rewrite (index_of_app_other _ _ _ Hne).
    destruct (index_of name' (columns df)) as [j|] eqn:E'; simpl; [|reflexivity].
    f_equal. apply cells_at_zip_old; [exact Hl|].
    intros r v Hr. simpl. apply app_nth1.
    rewrite (row_length df r Hwf Hr). exact (index_of_lt _ _ _ E').
Qed.

Lemma setitem_rows_wf df name vs : rows_wf df -> rows_wf (setitem df name vs).
Proof.
  unfold rows_wf, setitem. rewrite !Forall_forall. intro H.
  destruct (index_of name (columns df)); simpl; intros r' Hr';
    apply in_map_iff in Hr'; destruct Hr' as [[r v] [<- Hrv]];
    apply in_combine_l in Hrv; simpl.
  - rewrite length_set_nth. now apply H.
  - rewrite !length_app. simpl. now rewrite (H r Hrv).
Qed.

Lemma length_rows_setitem df name vs :
  List.length vs = List.length (rows df) ->
  List.length (rows (setitem df name vs)) = List.length (rows df).
Proof.
  intro H. unfold setitem.
  destruct (index_of name (columns df)); simpl;
    rewrite length_map, length_combine; lia.
Qed.

(** *** The seven-column sheet *)

Lemma averages_ok df name (f : list cell -> cell) :
  rows_wf df -> numeric_from 3 df -> (7 <= List.length (columns df))%nat ->
  ~ In name (columns df) ->
  mean_axis1 (iloc 3 7 (setitem df name (map f (rows df))))
  = Ok (map average_of (rows df)).
Proof.
  intros Hwf Hnum H7 Hfresh. rewrite (setitem_fresh df name f Hfresh).
  unfold mean_axis1. simpl. rewrite map_map. apply mapM_map_map.
  intros r Hr. pose proof (row_length df r Hwf Hr) as Hl.
  rewrite slice_app by lia.
  apply average_wide; [exact (row_numeric df r Hnum Hr)|lia].
Qed.

(** *** Positions 4 to 7 are untouched by the two assignments *)

Lemma nth_slice {A : Type} (a b k : nat) (l : list A) d :
  nth k (slice a b l) d = if (k <? b - a)%nat then nth (a + k) l d else d.
Proof.
  unfold slice. rewrite nth_firstn, nth_skipn. reflexivity.
Qed.

Lemma slice_set_nth i v r :
  (i < 3 \/ 7 <= i)%nat -> slice 3 7 (set_nth i v r) = slice 3 7 r.
Proof.
  intro H. apply (nth_ext _ _ NaN NaN).
  - unfold slice. now rewrite !length_firstn, !length_skipn, length_set_nth.
  - intros k _. rewrite !nth_slice. destruct (k <? 7 - 3)%nat eqn:E; [|reflexivity].
    apply Nat.ltb_lt in E. apply nth_set_nth_other. lia.
Qed.

Lemma slice_4 {A : Type} (l : list A) d :
  (7 <= List.length l)%nat ->
  slice 3 7 l = [nth 3 l d; nth 4 l d; nth 5 l d; nth 6 l d].
Proof.
  intro H. do 7 (destruct l as [|? l]; [simpl in H; lia|]). reflexivity.
Qed.

Lemma map_combine_l {A B C : Type} (g : A * B -> C) (f : A -> C) rs vs :
  List.length vs = List.length rs ->
  (forall r v, In r rs -> g (r, v) = f r) ->
  map g (combine rs vs) = map f rs.
Proof.
  revert vs. induction rs as [|r rs IH]; intros [|v vs] Hl H; simpl in *;
    try discriminate; [reflexivity|].
  rewrite H by auto. f_equal. apply IH; [lia|]. intros. apply H. now right.
Qed.

Lemma index_in_slice name cols i :
  index_of name cols = Some i -> (3 <= i < 7)%nat -> In name (slice 3 7 cols).
Proof.
  intros H Hi. apply index_of_Some in H.
  apply (nth_error_In (slice 3 7 cols) (i - 3)%nat). unfold slice.
  rewrite nth_error_firstn, nth_error_skipn.
  replace (3 + (i - 3))%nat with i by lia.
  destruct (Nat.ltb_spec (i - 3) (7 - 3)); [exact H|lia].
Qed.

Lemma iloc_setitem df name vs :
  rows_wf df -> (7 <= List.length (columns df))%nat ->
  List.length vs = List.length (rows df) ->
  ~ In name (slice 3 7 (columns df)) ->
  iloc 3 7 (setitem df name vs) = iloc 3 7 df.
Proof.
  intros Hwf H7 Hl Hfresh. unfold iloc, setitem.
  destruct (index_of name (columns df)) as [i|] eqn:E; simpl; f_equal.
  - rewrite map_map. apply map_combine_l; [exact Hl|].
    intros r v _. simpl. apply slice_set_nth.
    destruct (Nat.lt_ge_cases i 3); [now left|].
    destruct (Nat.lt_ge_cases i 7); [|now right].
    exfalso. apply Hfresh. apply (index_in_slice _ _ _ E). lia.
  - now apply slice_app.
  - rewrite map_map. apply map_combine_l; [exact Hl|].
    intros r v Hr. simpl. apply slice_app.
    now rewrite (row_length df r Hwf Hr).
Qed.

Lemma length_columns_setitem df name vs :
  (List.length (columns df) <= List.length (columns (setitem df name vs)))%nat.
Proof.
  rewrite setitem_columns. destruct (index_of name (columns df)); [lia|].
  rewrite length_app. lia.
Qed.

Lemma slice_columns_setitem df name vs :
  (7 <= List.length (columns df))%nat ->
  slice 3 7 (columns (setitem df name vs)) = slice 3 7 (columns df).
Proof.
  intro H. rewrite setitem_columns.
  destruct (index_of name (columns df)); [reflexivity|]. now apply slice_app.
Qed.

Lemma averages_of_rows df :
  rows_wf df -> numeric_from 3 df -> (3 < List.length (columns df))%nat ->
  mean_axis1 (iloc 3 7 df) = Ok (map average_of (rows df)).
Proof.
  intros Hwf Hnum H7. unfold mean_axis1. simpl. apply mapM_map_map.
  intros r Hr. apply average_wide; [exact (row_numeric df r Hnum Hr)|].
  now rewrite (row_length df r Hwf Hr).
Qed.

(** On the documented shape, with the two labels not in use at positions 4 to
    7, the assignments succeed and leave positions 4 to 7 as they were. *)
Lemma augment_keeps_subjects df :
  rows_wf df -> (7 <= List.length (columns df))%nat -> numeric_from 3 df ->
  ~ In "Total Marks" (slice 3 7 (columns df)) ->
  ~ In "Average Marks" (slice 3 7 (columns df)) ->
  exists aug, augment df = Ok aug /\ iloc 3 7 aug = iloc 3 7 df.
Proof.
  intros Hwf H7 Hnum HT HA.
  set (df1 := setitem df "Total Marks" (map (row_total (int_marks df)) (rows df))).
  assert (iloc 3 7 df1 = iloc 3 7 df) as E1.
  { apply iloc_setitem; auto. apply length_map. }
  exists (setitem df1 "Average Marks" (map average_of (rows df))). split.
  - unfold augment. rewrite (totals_ok df Hnum). cbn [bind]. fold df1.
    rewrite E1, (averages_of_rows df Hwf Hnum) by lia. reflexivity.
  - rewrite iloc_setitem; [exact E1|apply setitem_rows_wf, Hwf| | |].
    + pose proof (length_columns_setitem df "Total Marks"
                    (map (row_total (int_marks df)) (rows df))).
      fold df1 in H. lia.
    + unfold df1. rewrite length_rows_setitem; now rewrite !length_map.
    + unfold df1. now rewrite slice_columns_setitem.
Qed.

Lemma average_of_seven r :
  List.length r = 7%nat ->
  average_of r = Num (Qcsum (vals (skipn 3 r)) / Qc_of_Z 4).
Proof.
  intro H. unfold average_of, arith_mean, slice.
  rewrite firstn_all2 by (rewrite length_skipn; lia).
  unfold vals. rewrite length_map, length_skipn, H. reflexivity.
Qed.

Lemma huge_mark_shape : student_table huge_mark.
Proof.
  split; [split|split; [|split]].
  - repeat (constructor; [simpl; intuition discriminate|]). constructor.
  - repeat constructor.
  - simpl. lia.
  - repeat constructor.
  - exists [Str "A"]. split; reflexivity.
Qed.

(** C10, as the code has it. On a table with exactly seven columns, numbers
    at positions 4 to 7, none of these four columns labelled "Total Marks",
    and no row total of int64 marks beyond int64, every row of the augmented
    table has Average = Total / 4. *)
Theorem average_is_quarter_of_total (df : DataFrame) :
  rows_wf df ->
  List.length (columns df) = 7%nat ->
  numeric_from 3 df ->
  ~ In "Total Marks" (slice 3 7 (columns df)) ->
  no_overflow df ->
  exists aug totals,
    augment df = Ok aug /\
    List.length totals = List.length (rows df) /\
    Forall is_num totals /\
    column_of "Total Marks" aug = Some totals /\
    column_of "Average Marks" aug
    = Some (map (fun t => Num (cell_val t / Qc_of_Z 4)) totals).
Proof.
  intros Hwf H7 Hnum HT Hfit.
  set (totals := map (row_total (int_marks df)) (rows df)).
  set (df1 := setitem df "Total Marks" totals).
  assert (List.length totals = List.length (rows df)) as Hlt by apply length_map.
  assert (rows_wf df1) as Hwf1 by apply setitem_rows_wf, Hwf.
  assert (List.length (rows df1) = List.length (rows df)) as Hl1.
  { now apply length_rows_setitem. }
  exists (setitem df1 "Average Marks" (map average_of (rows df))), totals.
  split; [|split; [|split; [|split]]].
  - unfold augment. rewrite (totals_ok df Hnum). cbn [bind]. fold totals. fold df1.
    unfold df1. rewrite iloc_setitem; [|exact Hwf|lia|exact Hlt|exact HT].
    rewrite (averages_of_rows df Hwf Hnum) by lia. reflexivity.
  - exact Hlt.
  - apply Forall_forall. intros t Ht. apply in_map_iff in Ht.
    destruct Ht as [r [<- _]]. apply row_total_num.
  - rewrite column_of_setitem_other; [|discriminate|exact Hwf1|].
    + unfold df1. now apply column_of_setitem_same.
    + rewrite Hl1. apply length_map.
  - rewrite column_of_setitem_same; [|exact Hwf1|rewrite Hl1; apply length_map].
    f_equal. unfold totals. rewrite map_map. apply map_ext_in. intros r Hr.
    rewrite (row_total_exact df r Hfit Hr), (total_of_val df r Hr).
    apply average_of_seven. rewrite (row_length df r Hwf Hr). exact H7.
Qed.

Lemma average_is_quarter_of_total_witness :
  exists aug totals,
    augment three_students = Ok aug /\
    List.length totals = List.length (rows three_students) /\
    Forall is_num totals /\
    column_of "Total Marks" aug = Some totals /\
    column_of "Average Marks" aug
    = Some (map (fun t => Num (cell_val t / Qc_of_Z 4)) totals).
Proof.
  apply (average_is_quarter_of_total three_students).
  - repeat constructor.
  - reflexivity.
  - repeat constructor.
  - simpl. intros [K|[K|[K|[K|[]]]]]; discriminate.
  - intros _. cbn [three_students rows].
    repeat (apply Forall_cons; [vm_compute; split; [discriminate|reflexivity]|]).
    apply Forall_nil.
Defined.

(** C10, as stated, fails on a seven-column sheet whose first subject column
    is already labelled "Total Marks": the assignment overwrites that column
    with the total, 100, and the average is then taken over 100, 20, 30, 40:
    47.5, not 100 / 4.  It also fails on int64 marks whose sum leaves int64:
    for the marks 9223372036854775807, 1, 0, 0 the total is
    -9223372036854775808 and the average 2305843009213693952. *)
Lemma overwritten_total_breaks_quarter :
  (student_table labelled_total /\
   List.length (columns labelled_total) = 7%nat /\
   exists aug,
     augment labelled_total = Ok aug /\
     column_of "Total Marks" aug = Some [n_ 100] /\
     column_of "Average Marks" aug = Some [Num (Qc_of_Z 95 / Qc_of_Z 2)] /\
     Qc_of_Z 95 / Qc_of_Z 2 <> Qc_of_Z 100 / Qc_of_Z 4) /\
  (student_table huge_mark /\
   List.length (columns huge_mark) = 7%nat /\
   ~ In "Total Marks" (columns huge_mark) /\
   exists aug,
     augment huge_mark = Ok aug /\
     column_of "Total Marks" aug = Some [n_ (-9223372036854775808)] /\
     column_of "Average Marks" aug = Some [f_ 2305843009213693952] /\
     Qc_of_Z 2305843009213693952 <> Qc_of_Z (-9223372036854775808) / Qc_of_Z 4).
Proof.
  split.
  - split; [exact labelled_total_shape|]. split; [reflexivity|].
    destruct (augment labelled_total) as [aug|e] eqn:E; vm_compute in E; [|discriminate].
    exists aug. split; [reflexivity|]. injection E as <-.
    split; [vm_compute; qc_data|]. split; [vm_compute; qc_data|].
    intro K. apply (f_equal this) in K. vm_compute in K. discriminate.
  - split; [exact huge_mark_shape|]. split; [reflexivity|].
    split; [simpl; intros [K|[K|[K|[K|[K|[K|[K|[]]]]]]]]; discriminate|].
    destruct (augment huge_mark) as [aug|e] eqn:E; vm_compute in E; [|discriminate].
    exists aug. split; [reflexivity|]. injection E as <-.
    split; [vm_compute; qc_data|]. split; [vm_compute; qc_data|].
    intro K. apply (f_equal this) in K. vm_compute in K. discriminate.
Qed.

(** *** Subject averages *)

Lemma cells_at_slice j rs :
  (j < 4)%nat -> cells_at j (map (slice 3 7) rs) = cells_at (3 + j) rs.
Proof.
  intro H. unfold cells_at. rewrite map_map. apply map_ext. intro r.
  rewrite nth_slice. destruct (Nat.ltb_spec j (7 - 3)); [reflexivity|lia].
Qed.

Lemma column_numeric df j :
  rows_wf df -> numeric_from 3 df -> (3 <= j < List.length (columns df))%nat ->
  Forall is_num (cells_at j (rows df)).
Proof.
  intros Hwf Hnum Hj. apply Forall_forall. intros c Hc.
  apply in_map_iff in Hc. destruct Hc as [r [<- Hr]].
  pose proof (row_numeric df r Hnum Hr) as Hn. rewrite Forall_forall in Hn.
  apply Hn. replace j with (3 + (j - 3))%nat by lia. rewrite <- nth_skipn.
  apply nth_In. rewrite length_skipn, (row_length df r Hwf Hr). lia.
Qed.

Lemma subject_means df :
  rows_wf df -> (7 <= List.length (columns df))%nat -> numeric_from 3 df ->
  rows df <> [] ->
  mean_axis0 (iloc 3 7 df) = Ok (spec_subject_averages df).
Proof.
  intros Hwf H7 Hnum Hne. unfold mean_axis0.
  rewrite (mapM_map _ (fun jn => (snd jn,
             Num (arith_mean (vals (cells_at (3 + fst jn) (rows df))))))).
  - simpl. rewrite (slice_4 (columns df) "" H7). reflexivity.
  - intros [j name] Hin. simpl.
    apply in_combine_l, in_seq in Hin.
    change (columns (iloc 3 7 df)) with (slice 3 7 (columns df)) in Hin.
    rewrite length_slice in Hin by exact H7.
    rewrite cells_at_slice by lia.
    rewrite mean_cells_num; [reflexivity| |].
    + apply column_numeric; auto. lia.
    + unfold cells_at. destruct (rows df); [congruence|discriminate].
Qed.

Lemma arith_mean_single q : arith_mean [q] = q.
Proof.
  unfold arith_mean. simpl. rewrite Qc_of_nat_S, Qc_of_nat_0.
  field. discriminate.
Qed.

(** C8, as the code has it. On a non-empty table of the documented shape
    whose columns at positions 4 to 7 are not labelled "Total Marks" or
    "Average Marks", the subject averages have one entry for each input
    column at positions 4 to 7, in column order, each the arithmetic mean of
    that column over all rows; with a single row they are that row's values
    at positions 4 to 7, as float64. *)
Theorem subject_averages_are_column_means (df : DataFrame) :
  rows_wf df ->
  (7 <= List.length (columns df))%nat ->
  numeric_from 3 df ->
  ~ In "Total Marks" (slice 3 7 (columns df)) ->
  ~ In "Average Marks" (slice 3 7 (columns df)) ->
  rows df <> [] ->
  exists aug,
    augment df = Ok aug /\
    subject_averages aug = Ok (spec_subject_averages df) /\
    map fst (spec_subject_averages df) = slice 3 7 (columns df) /\
    (forall r, rows df = [r] ->
               map snd (spec_subject_averages df)
               = map (fun c => Num (cell_val c)) (slice 3 7 r)).
Proof.
  intros Hwf H7 Hnum HT HA Hne.
  destruct (augment_keeps_subjects df Hwf H7 Hnum HT HA) as [aug [Ha Hi]].
  exists aug. split; [exact Ha|]. split; [|split].
  - unfold subject_averages. rewrite Hi. now apply subject_means.
  - rewrite (slice_4 (columns df) "" H7). reflexivity.
  - intros r Hr.
    assert (In r (rows df)) as Hin by (rewrite Hr; now left).
    pose proof (row_length df r Hwf Hin) as Hl.
    pose proof (row_numeric df r Hnum Hin) as Hn.
    rewrite (slice_4 r NaN) by lia.
    unfold spec_subject_averages. rewrite Hr. simpl.
    rewrite !arith_mean_single. reflexivity.
Qed.

Lemma subject_averages_are_column_means_witness :
  exists aug,
    augment three_students = Ok aug /\
    subject_averages aug = Ok (spec_subject_averages three_students) /\
    map fst (spec_subject_averages three_students)
    = slice 3 7 (columns three_students) /\
    (forall r, rows three_students = [r] ->
               map snd (spec_subject_averages three_students)
               = map (fun c => Num (cell_val c)) (slice 3 7 r)).
Proof.
  apply (subject_averages_are_column_means three_students).
  - repeat constructor.
  - simpl. lia.
  - repeat constructor.
  - simpl. intros [K|[K|[K|[K|[]]]]]; discriminate.
  - simpl. intros [K|[K|[K|[K|[]]]]]; discriminate.
  - discriminate.
Defined.

(** C8, as stated, fails on a one-row sheet of the documented shape whose
    first subject column is labelled "Total Marks": that column is
    overwritten with the total before the means are taken, so the first
    subject average is 100 where the row holds 10. *)
Lemma overwritten_subject_average :
  student_table labelled_total /\
  exists aug sa,
    augment labelled_total = Ok aug /\
    subject_averages aug = Ok sa /\
    sa = [("Total Marks", f_ 100); ("Science", f_ 20);
          ("English", f_ 30); ("Hindi", f_ 40)] /\
    slice 3 7 [Str "Asha"; n_ 1; Str "A"; n_ 10; n_ 20; n_ 30; n_ 40]
    = [n_ 10; n_ 20; n_ 30; n_ 40] /\
    sa <> spec_subject_averages labelled_total.
Proof.
  split; [exact labelled_total_shape|].
  destruct (augment labelled_total) as [aug|e] eqn:E; vm_compute in E; [|discriminate].
  injection E as <-.
  match goal with |- exists a sa, Ok ?x = Ok a /\ _ => set (aug := x) end.
  destruct (subject_averages aug) as [sa|e] eqn:E;
    [|vm_compute in E; discriminate].
  exists aug, sa. split; [reflexivity|]. split; [exact E|].
  vm_compute in E. injection E as <-.
  split; [qc_data|]. split; [reflexivity|].
  intro K. apply (f_equal (map (fun e => erase (snd e)))) in K.
  vm_compute in K. discriminate.
Qed.

(** *** Group keys *)

Lemma cell_eqb_eq a b : cell_eqb a b = true <-> a = b.
Proof.
  destruct a as [s|x|x|], b as [t|y|y|]; simpl; split; intro H;
    try discriminate; try reflexivity.
  - apply String.eqb_eq in H. now subst.
  - injection H as ->. apply String.eqb_refl.
  - apply Z.eqb_eq in H. now subst.
  - injection H as ->. apply Z.eqb_refl.
  - apply Qc_eq_bool_correct in H. now subst.
  - injection H as ->. unfold Qc_eq_bool.
    destruct (Qc_eq_dec y y); [reflexivity|congruence].
Qed.

Lemma cell_eqb_refl a : cell_eqb a a = true.
Proof. now apply cell_eqb_eq. Qed.

Lemma In_unique x l : In x (unique l) <-> In x l.
Proof.
  induction l as [|k l IH]; simpl; [tauto|].
  rewrite filter_In, IH. split.
  - intros [H|[H _]]; auto.
  - intros [H|H]; auto.
    destruct (cell_eqb x k) eqn:E.
    + apply cell_eqb_eq in E. auto.
    + right. split; [exact H|reflexivity].
Qed.

Lemma NoDup_unique l : NoDup (unique l).
Proof.
  induction l as [|k l IH]; simpl; constructor.
  - rewrite filter_In. intros [_ H]. now rewrite cell_eqb_refl in H.
  - now apply NoDup_filter.
Qed.

Lemma insert_key_perm k l : Permutation (insert_key k l) (k :: l).
Proof.
  induction l as [|k' l IH]; simpl; [reflexivity|].
  destruct (cell_leb k k'); [reflexivity|].
  rewrite IH. apply perm_swap.
Qed.

Lemma sort_keys_perm l : Permutation (sort_keys l) l.
Proof.
  induction l as [|k l IH]; simpl; [reflexivity|].
  rewrite insert_key_perm. now constructor.
Qed.

Lemma NoDup_group_keys key df : NoDup (group_keys key df).
Proof.
  unfold group_keys. eapply Permutation_NoDup.
  - symmetry. apply sort_keys_perm.
  - apply NoDup_unique.
Qed.

Lemma In_group_keys key df k :
  In k (group_keys key df) <->
  exists r, In r (rows df) /\ nth key r NaN = k /\ notna k = true.
Proof.
  unfold group_keys. split.
  - intro H. apply (Permutation_in _ (sort_keys_perm _)) in H.
    apply In_unique, filter_In in H. destruct H as [H Hk].
    apply in_map_iff in H. destruct H as [r [H Hr]]. eauto.
  - intros [r [Hr [H Hk]]].
    apply (Permutation_in _ (Permutation_sym (sort_keys_perm _))).
    apply In_unique, filter_In. split; [|exact Hk].
    unfold cells_at. apply in_map_iff. eauto.
Qed.

(** *** Sums over the groups of a partition *)

Lemma Qcsum_zero {A : Type} (l : list A) : Qcsum (map (fun _ => 0) l) = 0.
Proof.
  induction l as [|a l IH]; simpl; [reflexivity|]. rewrite IH. ring.
Qed.

Lemma Qcsum_plus {A : Type} (f g : A -> Qc) (l : list A) :
  Qcsum (map (fun a => f a + g a) l) = Qcsum (map f l) + Qcsum (map g l).
Proof.
  induction l as [|a l IH]; simpl; [ring|]. rewrite IH. ring.
Qed.

Lemma Qcsum_ext {A : Type} (f g : A -> Qc) (l : list A) :
  (forall a, In a l -> f a = g a) -> Qcsum (map f l) = Qcsum (map g l).
Proof.
  intro H. f_equal. now apply map_ext_in.
Qed.

Lemma Qcsum_ones {A : Type} (l : list A) :
  Qcsum (map (fun _ => 1) l) = Qc_of_nat (List.length l).
Proof.
  induction l as [|a l IH]; simpl Qcsum; simpl List.length.
  - now rewrite Qc_of_nat_0.
  - rewrite IH, Qc_of_nat_S. ring.
Qed.

Lemma sum_indicator (k0 : cell) (x : Qc) (keys : list cell) :
  NoDup keys -> In k0 keys ->
  Qcsum (map (fun k => if cell_eqb k0 k then x else 0) keys) = x.
Proof.
  induction 1 as [|k keys Hk Hnd IH]; simpl; [tauto|].
  intros [->|Hin].
  - rewrite cell_eqb_refl.
    rewrite (Qcsum_ext _ (fun _ => 0)), Qcsum_zero; [ring|].
    intros a Ha. destruct (cell_eqb k0 a) eqn:E; [|reflexivity].
    apply cell_eqb_eq in E. congruence.
  - destruct (cell_eqb k0 k) eqn:E.
    + apply cell_eqb_eq in E. congruence.
    + rewrite IH by exact Hin. ring.
Qed.

Lemma sum_over_groups (v : list cell -> Qc) key keys rs :
  NoDup keys ->
  (forall r, In r rs -> In (nth key r NaN) keys) ->
  Qcsum (map (fun k => Qcsum (map v (filter (fun r => cell_eqb (nth key r NaN) k) rs)))
             keys)
  = Qcsum (map v rs).
Proof.
  intros Hnd. induction rs as [|r rs IH]; intro Hin; simpl.
  - apply Qcsum_zero.
  - rewrite <- IH by (intros; apply Hin; now right).
    rewrite <- (sum_indicator (nth key r NaN) (v r) keys Hnd)
      by (apply Hin; now left).
    rewrite <- Qcsum_plus. apply Qcsum_ext. intros k _.
    destruct (cell_eqb (nth key r NaN) k); simpl; ring.
Qed.

(** *** Class averages *)

Lemma index_of_nth cols j name :
  NoDup cols -> nth_error cols j = Some name -> index_of name cols = Some j.
Proof.
  intro Hnd. revert j. induction Hnd as [|c cols Hc _ IH]; intros j H.
  - now destruct j.
  - destruct j as [|j]; simpl in *.
    + injection H as ->. now rewrite String.eqb_refl.
    + destruct (String.eqb_spec c name) as [->|_].
      * exfalso. apply Hc. exact (nth_error_In _ _ H).
      * now rewrite (IH j H).
Qed.

Lemma label_index_run cols names a :
  NoDup cols ->
  (forall i, (i < List.length names)%nat ->
             nth_error cols (a + i) = nth_error names i) ->
  mapM (label_index cols) names = Ok (seq a (List.length names)).
Proof.
  intro Hnd. revert a. induction names as [|name names IH]; intros a H; simpl;
    [reflexivity|].
  assert (nth_error cols a = Some name) as H0.
  { specialize (H 0%nat). rewrite Nat.add_0_r in H. apply H. simpl. lia. }
  unfold label_index at 1. rewrite (index_of_nth cols a name Hnd H0). simpl.
  rewrite (IH (S a)); [reflexivity|].
  intros i Hi. specialize (H (S i)). rewrite Nat.add_succ_r in H.
  apply H. simpl. lia.
Qed.

Lemma label_index_slice cols :
  NoDup cols -> (7 <= List.length cols)%nat ->
  mapM (label_index cols) (slice 3 7 cols) = Ok [3; 4; 5; 6]%nat.
Proof.
  intros Hnd H7.
  rewrite (label_index_run cols (slice 3 7 cols) 3 Hnd).
  - now rewrite length_slice.
  - intros i Hi. rewrite length_slice in Hi by exact H7.
    unfold slice. rewrite nth_error_firstn, nth_error_skipn.
    destruct (Nat.ltb_spec i (7 - 3)); [reflexivity|lia].
Qed.

Lemma group_means_ok d key k :
  rows_wf d -> numeric_from 3 d -> (7 <= List.length (columns d))%nat ->
  In k (group_keys key d) ->
  mapM (fun j => mean_cells (cells_at j (group_rows key k d))) [3; 4; 5; 6]%nat
  = Ok (map (group_mean key d k) [3; 4; 5; 6]%nat).
Proof.
  intros Hwf Hnum H7 Hk. apply mapM_map. intros j Hj.
  set (g := {| columns := columns d; rows := group_rows key k d |}).
  assert (rows_wf g) as Hwfg.
  { unfold rows_wf, g. simpl. apply Forall_forall. intros r Hr.
    apply filter_In in Hr. exact (row_length d r Hwf (proj1 Hr)). }
  assert (numeric_from 3 g) as Hnumg.
  { unfold numeric_from, g. simpl. apply Forall_forall. intros r Hr.
    apply filter_In in Hr. exact (row_numeric d r Hnum (proj1 Hr)). }
  apply mean_cells_num.
  - apply (column_numeric g j Hwfg Hnumg). simpl in *. lia.
  - apply In_group_keys in Hk. destruct Hk as [r [Hr [Hkey _]]].
    assert (In r (group_rows key k d)) as Hg.
    { apply filter_In. split; [exact Hr|]. now apply cell_eqb_eq. }
    unfold cells_at. destruct (group_rows key k d); [contradiction|discriminate].
Qed.

Lemma class_averages_form d key :
  wf_frame d -> numeric_from 3 d -> (7 <= List.length (columns d))%nat ->
  index_of "Class" (columns d) = Some key ->
  class_averages d
  = Ok {| g_columns := slice 3 7 (columns d);
          g_rows := map (fun k => (k, map (group_mean key d k) [3; 4; 5; 6]%nat))
                        (group_keys key d) |}.
Proof.
  intros [Hnd Hwf] Hnum H7 Hkey.
  unfold class_averages, groupby_mean, label_index at 1. rewrite Hkey. simpl.
  rewrite (label_index_slice _ Hnd H7). cbn [bind].
  rewrite (mapM_map _ (fun k => (k, map (group_mean key d k) [3; 4; 5; 6]%nat))).
  - reflexivity.
  - intros k Hk. now rewrite group_means_ok.
Qed.

Lemma Qc_of_nat_nonzero n : n <> 0%nat -> Qc_of_nat n <> 0.
Proof.
  intros Hn H. apply (f_equal this) in H. unfold Qc_of_nat, Q2Qc in H.
  cbn [this] in H.
  assert (inject_Z (Z.of_nat n) == 0)%Q as E.
  { rewrite <- (Qred_correct (inject_Z (Z.of_nat n))), H. reflexivity. }
  unfold Qeq in E. simpl in E. lia.
Qed.

Lemma length_filter_map {A B : Type} (p : B -> bool) (g : A -> B) (l : list A) :
  List.length (filter p (map g l)) = List.length (filter (fun a => p (g a)) l).
Proof.
  induction l as [|a l IH]; simpl; [reflexivity|].
  destruct (p (g a)); simpl; now rewrite IH.
Qed.

Lemma class_size_group d key k :
  index_of "Class" (columns d) = Some key ->
  class_size d k = List.length (group_rows key k d).
Proof.
  intro H. unfold class_size, column_of. rewrite H. simpl.
  unfold cells_at, group_rows. apply length_filter_map.
Qed.

(** *** Weighted-average consistency on one frame *)

Lemma weighted_consistency d key i :
  wf_frame d -> numeric_from 3 d -> (7 <= List.length (columns d))%nat ->
  index_of "Class" (columns d) = Some key ->
  (forall r, In r (rows d) -> notna (nth key r NaN) = true) ->
  rows d <> [] ->
  weighted_mean
    (map (fun k => (Qc_of_nat (class_size d k), cell_val (group_mean key d k i)))
         (group_keys key d))
  = arith_mean (vals (cells_at i (rows d))).
Proof.
  intros [Hnd Hwf] Hnum H7 Hkey Hcls Hne.
  pose (v := fun r : list cell => cell_val (nth i r NaN)).
  assert (forall r, In r (rows d) -> In (nth key r NaN) (group_keys key d)) as Hin.
  { intros r Hr. apply In_group_keys. exists r. auto. }
  assert (forall k, vals (cells_at i (group_rows key k d))
                    = map v (group_rows key k d)) as Hv.
  { intro k. unfold vals, cells_at. now rewrite map_map. }
  unfold weighted_mean. rewrite !map_map. simpl.
  assert (Qcsum (map (fun k => Qc_of_nat (class_size d k)
                               * arith_mean (vals (cells_at i (group_rows key k d))))
                     (group_keys key d))
          = Qcsum (map v (rows d))) as Hnumer.
  { rewrite <- (sum_over_groups v key (group_keys key d) (rows d)
                  (NoDup_group_keys key d) Hin).
    apply Qcsum_ext. intros k Hk.
    rewrite (class_size_group d key k Hkey). unfold arith_mean.
    rewrite Hv, length_map. fold (group_rows key k d).
    field. apply Qc_of_nat_nonzero.
    apply In_group_keys in Hk. destruct Hk as [r [Hr [Hk _]]].
    assert (In r (group_rows key k d)) as Hg.
    { apply filter_In. split; [exact Hr|]. now apply cell_eqb_eq. }
    destruct (group_rows key k d); [contradiction|discriminate]. }
  assert (Qcsum (map (fun k => Qc_of_nat (class_size d k)) (group_keys key d))
          = Qc_of_nat (List.length (rows d))) as Hdenom.
  { rewrite <- (Qcsum_ones (rows d)).
    rewrite <- (sum_over_groups (fun _ => 1) key (group_keys key d) (rows d)
                  (NoDup_group_keys key d) Hin).
    apply Qcsum_ext. intros k _.
    rewrite (class_size_group d key k Hkey). symmetry. apply Qcsum_ones. }
  unfold group_mean. simpl cell_val. rewrite Hnumer, Hdenom.
  unfold arith_mean, vals, cells_at. now rewrite !length_map, map_map.
Qed.

(** *** What the two assignments preserve *)

Lemma index_of_None_not_In name cols : index_of name cols = None -> ~ In name cols.
Proof.
  intros H K. apply index_of_In in K. destruct K as [j K]. congruence.
Qed.

Lemma setitem_NoDup d name vs : NoDup (columns d) -> NoDup (columns (setitem d name vs)).
Proof.
  intro H. rewrite setitem_columns.
  destruct (index_of name (columns d)) eqn:E; [exact H|].
  apply NoDup_app; [exact H|repeat constructor; auto|].
  intros x Hx [<-|[]]. exact (index_of_None_not_In _ _ E Hx).
Qed.

Lemma Forall_skipn_set_nth (P : cell -> Prop) n i v r :
  Forall P (skipn n r) -> P v -> Forall P (skipn n (set_nth i v r)).
Proof.
  revert n i. induction r as [|c r IH]; intros n i H Hv.
  - destruct i; exact H.
  - destruct n as [|n], i as [|i]; simpl in *.
    + inversion H; subst. now constructor.
    + inversion H; subst. constructor; [assumption|].
      apply (IH 0%nat); assumption.
    + exact H.
    + now apply IH.
Qed.

Lemma setitem_numeric d name vs :
  numeric_from 3 d -> Forall is_num vs -> numeric_from 3 (setitem d name vs).
Proof.
  unfold numeric_from, setitem. rewrite !Forall_forall. intros H Hvs.
  destruct (index_of name (columns d)); simpl; intros r' Hr';
    apply in_map_iff in Hr'; destruct Hr' as [[r v] [<- Hrv]];
    pose proof (in_combine_l _ _ _ _ Hrv) as Hr;
    pose proof (in_combine_r _ _ _ _ Hrv) as Hv; cbn [fst snd].
  - apply (Forall_skipn_set_nth is_num 3 n v r); [now apply H|now apply Hvs].
  - apply (Forall_skipn_app is_num 3 r v); [now apply H|now apply Hvs].
Qed.

Lemma augment_ok df :
  rows_wf df -> numeric_from 3 df -> (3 < List.length (columns df))%nat ->
  augment df
  = Ok (setitem (setitem df "Total Marks" (map (row_total (int_marks df)) (rows df)))
          "Average Marks"
          (map average_of
               (rows (setitem df "Total Marks"
                        (map (row_total (int_marks df)) (rows df)))))).
Proof.
  intros Hwf Hnum H3. unfold augment. rewrite (totals_ok df Hnum). cbn [bind].
  rewrite averages_of_rows; [reflexivity| | |].
  - apply setitem_rows_wf, Hwf.
  - apply setitem_numeric; [exact Hnum|].
    apply Forall_forall. intros c Hc. apply in_map_iff in Hc.
    destruct Hc as [r [<- _]]. apply row_total_num.
  - pose proof (length_columns_setitem df "Total Marks"
                  (map (row_total (int_marks df)) (rows df))).
    lia.
Qed.

(** *** Class averages against subject averages *)

Lemma weighted_class_mean_rows df ca i :
  weighted_class_mean df ca i
  = weighted_mean
      (map (fun kr => (Qc_of_nat (class_size df (fst kr)), cell_val (nth i (snd kr) NaN)))
           (g_rows ca)).
Proof. reflexivity. Qed.

Lemma class_sizes_total d key :
  index_of "Class" (columns d) = Some key ->
  (forall r, In r (rows d) -> notna (nth key r NaN) = true) ->
  Qcsum (map (fun k => Qc_of_nat (class_size d k)) (group_keys key d))
  = Qc_of_nat (List.length (rows d)).
Proof.
  intros Hkey Hcls.
  assert (forall r, In r (rows d) -> In (nth key r NaN) (group_keys key d)) as Hin.
  { intros r Hr. apply In_group_keys. exists r. auto. }
  rewrite <- (Qcsum_ones (rows d)).
  rewrite <- (sum_over_groups (fun _ => 1) key (group_keys key d) (rows d)
                (NoDup_group_keys key d) Hin).
  apply Qcsum_ext. intros k _.
  rewrite (class_size_group d key k Hkey). symmetry. apply Qcsum_ones.
Qed.

Lemma Qc_of_nat_nonneg n : 0 <= Qc_of_nat n.
Proof.
  unfold Qcle, Qc_of_nat, Q2Qc. cbn [this]. rewrite !Qred_correct.
  unfold Qle. simpl. lia.
Qed.

Lemma Qc_of_nat_pos n : n <> 0%nat -> 0 < Qc_of_nat n.
Proof.
  intro H. unfold Qclt, Qc_of_nat, Q2Qc. cbn [this]. rewrite !Qred_correct.
  unfold Qlt. simpl. lia.
Qed.

(** *** Means of nearby values *)

Ltac qc_lra :=
  unfold Qcle, Qclt, Qcminus, Qcplus, Qcopp, Qcmult in *;
  cbn [this Q2Qc] in *; rewrite ?Qred_correct in *; lra.

Lemma Q_div_close (S S' W eps : Q) :
  (0 < W -> S - eps * W <= S' -> S' <= S + eps * W ->
   S / W - eps <= S' / W /\ S' / W <= S / W + eps)%Q.
Proof.
  intros HW H1 H2. split.
  - apply Qle_shift_div_l; [exact HW|].
    setoid_replace ((S / W - eps) * W)%Q with (S - eps * W)%Q; [exact H1|].
    field. lra.
  - apply Qle_shift_div_r; [exact HW|].
    setoid_replace ((S / W + eps) * W)%Q with (S + eps * W)%Q; [exact H2|].
    field. lra.
Qed.

Lemma Qc_div_close (S S' W eps : Qc) :
  0 < W -> S - eps * W <= S' -> S' <= S + eps * W -> close eps (S / W) (S' / W).
Proof.
  intros HW H1 H2. unfold close, Qcdiv, Qcinv.
  unfold Qcle, Qclt, Qcminus, Qcplus, Qcopp, Qcmult in *.
  cbn [this Q2Qc] in *. rewrite ?Qred_correct in *.
  apply Q_div_close; assumption.
Qed.

Lemma weighted_sums_close eps (l l' : list (Qc * Qc)) :
  Forall2 (fun a b => fst b = fst a /\ 0 <= fst a /\ close eps (snd a) (snd b)) l l' ->
  Qcsum (map fst l') = Qcsum (map fst l) /\
  Qcsum (map (fun wx => fst wx * snd wx) l) - eps * Qcsum (map fst l)
  <= Qcsum (map (fun wx => fst wx * snd wx) l') /\
  Qcsum (map (fun wx => fst wx * snd wx) l')
  <= Qcsum (map (fun wx => fst wx * snd wx) l) + eps * Qcsum (map fst l).
Proof.
  induction 1 as [|[w x] [w' x'] l l' [Hw [Hpos [Hlo Hhi]]] _ [IHw [IHlo IHhi]]];
    cbn [map Qcsum fold_right fst snd] in *.
  - split; [reflexivity|]. split; qc_lra.
  - subst w'. fold (Qcsum (map fst l)) in *. fold (Qcsum (map fst l')) in *.
    fold (Qcsum (map (fun wx => fst wx * snd wx) l)) in *.
    fold (Qcsum (map (fun wx => fst wx * snd wx) l')) in *.
    rewrite IHw. split; [reflexivity|].
    assert ((x - eps) * w <= x' * w) as A by (apply Qcmult_le_compat_r; assumption).
    assert (x' * w <= (x + eps) * w) as B by (apply Qcmult_le_compat_r; assumption).
    split; qc_lra.
Qed.

Lemma weighted_mean_close eps (l l' : list (Qc * Qc)) :
  Forall2 (fun a b => fst b = fst a /\ 0 <= fst a /\ close eps (snd a) (snd b)) l l' ->
  0 < Qcsum (map fst l) ->
  close eps (weighted_mean l) (weighted_mean l').
Proof.
  intros H HW. destruct (weighted_sums_close eps l l' H) as [Hw [Hlo Hhi]].
  unfold weighted_mean. rewrite Hw. now apply Qc_div_close.
Qed.

Lemma close_twice eps s s' m' :
  close eps s s' -> close eps s m' -> close (eps + eps) s' m'.
Proof. unfold close. intros [A B] [C D]. split; qc_lra. Qed.

Lemma close_refl x : close 0 x x.
Proof. unfold close. split; qc_lra. Qed.

Lemma close_zero x y : close (0 + 0) x y -> y = x.
Proof.
  unfold close. intros [A B]. apply Qcle_antisym; qc_lra.
Qed.

Lemma Forall2_same {A : Type} (R : A -> A -> Prop) (l : list A) :
  (forall a, R a a) -> Forall2 R l l.
Proof.
  intro H. induction l; constructor; auto.
Qed.

Lemma averages_within_refl ca : averages_within 0 ca ca.
Proof.
  apply Forall2_same. intros [k ms]. split; [reflexivity|].
  apply Forall2_same. intro c. apply close_refl.
Qed.

Lemma series_within_refl sa : series_within 0 sa sa.
Proof.
  apply Forall2_same. intros [name v]. split; [reflexivity|apply close_refl].
Qed.

Lemma Forall2_map_l_inv {A B C : Type} (P : B -> C -> Prop) (h : A -> B) l l' :
  Forall2 P (map h l) l' -> Forall2 (fun a c => P (h a) c) l l'.
Proof.
  revert l'. induction l as [|a l IH]; intros l' H; inversion H; subst;
    constructor; auto.
Qed.

Lemma Forall2_map_both {A B C D : Type} (R : C -> D -> Prop) (f : A -> C) (g : B -> D)
      l l' :
  Forall2 (fun a b => R (f a) (g b)) l l' -> Forall2 R (map f l) (map g l').
Proof.
  induction 1; simpl; constructor; auto.
Qed.

Lemma Forall2_nth_error_r {A B : Type} (R : A -> B -> Prop) l l' i b :
  Forall2 R l l' -> nth_error l' i = Some b ->
  exists a, nth_error l i = Some a /\ R a b.
Proof.
  intro H. revert i. induction H as [|a0 b0 l l' H0 _ IH]; intros i Hi.
  - destruct i; discriminate.
  - destruct i as [|i]; simpl in *.
    + injection Hi as <-. eauto.
    + now apply IH.
Qed.

Lemma Forall2_four {A B : Type} (R : A -> B -> Prop) a0 a1 a2 a3 (l' : list B) i a d' :
  Forall2 R [a0; a1; a2; a3] l' ->
  nth_error [a0; a1; a2; a3] i = Some a ->
  R a (nth i l' d').
Proof.
  intros H Hi.
  inversion H as [|? b0 ? l1 R0 H1]; subst.
  inversion H1 as [|? b1 ? l2 R1 H2]; subst.
  inversion H2 as [|? b2 ? l3 R2 H3]; subst.
  inversion H3 as [|? b3 ? l4 R3 H4]; subst.
  destruct i as [|[|[|[|[|i]]]]]; simpl in Hi; try discriminate;
    injection Hi as <-; assumption.
Qed.

(** The law on exact numbers: on one frame, the class means weighted by the
    class sizes give the column mean. *)
Lemma aggregate_exact df :
  student_table df -> rows df <> [] ->
  exists aug key,
    aggregate df
    = Ok (aug,
          {| g_columns := slice 3 7 (columns aug);
             g_rows := map (fun k => (k, map (group_mean key aug k) [3; 4; 5; 6]%nat))
                           (group_keys key aug) |},
          spec_subject_averages aug) /\
    (forall k, class_size df k = class_size aug k) /\
    (7 <= List.length (columns aug))%nat /\
    rows aug <> [] /\
    Qcsum (map (fun k => Qc_of_nat (class_size aug k)) (group_keys key aug))
    = Qc_of_nat (List.length (rows aug)) /\
    (forall j, weighted_mean
                 (map (fun k => (Qc_of_nat (class_size aug k),
                                 cell_val (group_mean key aug k j)))
                      (group_keys key aug))
               = arith_mean (vals (cells_at j (rows aug)))).
Proof.
  intros [[Hnd Hwf] [H7 [Hnum [cs [Hcs Hna]]]]] Hne.
  set (totals := map (row_total (int_marks df)) (rows df)).
  set (df1 := setitem df "Total Marks" totals).
  set (averages := map average_of (rows df1)).
  set (aug := setitem df1 "Average Marks" averages).
  assert (augment df = Ok aug) as Haug by (apply augment_ok; auto; lia).
  assert (rows_wf df1) as Hwf1 by apply setitem_rows_wf, Hwf.
  assert (List.length (rows df1) = List.length (rows df)) as Hl1.
  { apply length_rows_setitem. apply length_map. }
  assert (List.length (rows aug) = List.length (rows df)) as Hl2.
  { unfold aug. rewrite length_rows_setitem; [exact Hl1|apply length_map]. }
  assert (wf_frame aug) as Hwfa.
  { split; [apply setitem_NoDup, setitem_NoDup, Hnd|apply setitem_rows_wf, Hwf1]. }
  assert (numeric_from 3 aug) as Hnuma.
  { apply setitem_numeric; [apply setitem_numeric; [exact Hnum|]|];
      apply Forall_forall; intros c Hc; apply in_map_iff in Hc;
      destruct Hc as [r [<- _]]; [apply row_total_num|exact I]. }
  assert (7 <= List.length (columns aug))%nat as H7a.
  { pose proof (length_columns_setitem df "Total Marks" totals).
    pose proof (length_columns_setitem df1 "Average Marks" averages).
    fold df1 in H. fold aug in H0. lia. }
  assert (rows aug <> []) as Hnea.
  { intro K. rewrite K in Hl2. destruct (rows df); [congruence|discriminate]. }
  assert (column_of "Class" aug = Some cs) as Hcsa.
  { unfold aug. rewrite column_of_setitem_other;
      [|discriminate|exact Hwf1|apply length_map].
    unfold df1. rewrite column_of_setitem_other;
      [exact Hcs|discriminate|exact Hwf|apply length_map]. }
  assert (forall k, class_size df k = class_size aug k) as Hsz.
  { intro k. unfold class_size. now rewrite Hcs, Hcsa. }
  unfold column_of in Hcsa.
  destruct (index_of "Class" (columns aug)) as [key|] eqn:Hkey; [|discriminate].
  simpl in Hcsa. injection Hcsa as Hcells.
  assert (forall r, In r (rows aug) -> notna (nth key r NaN) = true) as Hcls.
  { intros r Hr. rewrite forallb_forall in Hna. apply Hna.
    rewrite <- Hcells. unfold cells_at.
    exact (in_map (fun r0 => nth key r0 NaN) _ _ Hr). }
  exists aug, key. split; [|split; [exact Hsz|split; [exact H7a|split; [exact Hnea|split]]]].
  - unfold aggregate. rewrite Haug. cbn [bind].
    rewrite (class_averages_form aug key Hwfa Hnuma H7a Hkey). cbn [bind].
    unfold subject_averages.
    rewrite (subject_means aug (proj2 Hwfa) H7a Hnuma Hnea). reflexivity.
  - now apply class_sizes_total.
  - intro j. now apply weighted_consistency.
Qed.

(** C3, as the code has it. On a non-empty table of the documented shape
    (a class in every row, no mark missing), for every subject average, the
    mean of that column of the class averages, each class weighted by its
    number of rows, is the subject average up to rounding: when the class
    averages and the subject averages shown are within [eps] of the exact
    means, the two differ by at most [2 eps]. *)
Theorem class_averages_weighted_mean (df : DataFrame) :
  student_table df ->
  rows df <> [] ->
  exists aug ca sa,
    aggregate df = Ok (aug, ca, sa) /\
    List.length sa = 4%nat /\
    g_columns ca = map fst sa /\
    forall (eps : Qc) (ca' : GroupFrame) (sa' : Series),
      averages_within eps ca ca' ->
      series_within eps sa sa' ->
      forall i name v,
        nth_error sa' i = Some (name, v) ->
        close (eps + eps) (cell_val v) (weighted_class_mean df ca' i).
Proof.
  intros Hst Hne.
  destruct (aggregate_exact df Hst Hne)
    as [aug [key [Hagg [Hsz [H7a [Hnea [Hden Hlaw]]]]]]].
  eexists aug, _, (spec_subject_averages aug).
  split; [exact Hagg|]. split; [reflexivity|]. split.
  - cbn [g_columns]. rewrite (slice_4 (columns aug) "" H7a). reflexivity.
  - intros eps ca' sa' Hca Hsa i name v Hi.
    destruct (Forall2_nth_error_r _ _ _ _ _ Hsa Hi) as [[name0 v0] [Hi0 [_ Hv]]].
    cbn [fst snd] in Hv.
    assert (exists j, nth_error [3; 4; 5; 6]%nat i = Some j /\
                      v0 = Num (arith_mean (vals (cells_at j (rows aug)))))
      as [j [Hj ->]].
    { unfold spec_subject_averages in Hi0.
      destruct i as [|[|[|[|[|i]]]]]; simpl in Hi0; try discriminate;
        injection Hi0 as _ <-; eexists; split; reflexivity. }
    cbn [cell_val] in Hv. rewrite <- (Hlaw j) in Hv.
    apply (close_twice eps _ _ _ Hv).
    rewrite weighted_class_mean_rows.
    apply weighted_mean_close.
    + unfold averages_within in Hca. cbn [g_rows] in Hca.
      apply Forall2_map_l_inv in Hca. apply Forall2_map_both.
      eapply Forall2_impl; [|exact Hca]. clear Hca.
      intros k kr' [Hk Hms]. cbn [fst snd] in *. split; [|split].
      * now rewrite Hk, Hsz.
      * apply Qc_of_nat_nonneg.
      * assert (nth_error (map (group_mean key aug k) [3; 4; 5; 6]%nat) i
                = Some (group_mean key aug k j)) as Hm.
        { rewrite nth_error_map, Hj. reflexivity. }
        cbn [map] in Hms, Hm.
        exact (Forall2_four _ _ _ _ _ _ i _ NaN Hms Hm).
    + rewrite map_map. cbn [fst]. rewrite Hden.
      apply Qc_of_nat_pos. destruct (rows aug); [congruence|discriminate].
Qed.

Lemma class_averages_weighted_mean_witness :
  exists aug ca sa,
    aggregate three_students = Ok (aug, ca, sa) /\
    List.length sa = 4%nat /\
    g_columns ca = map fst sa /\
    forall i name v,
      nth_error sa i = Some (name, v) ->
      weighted_class_mean three_students ca i = cell_val v.
Proof.
  destruct (class_averages_weighted_mean three_students)
    as [aug [ca [sa [Hagg [Hlen [Hcols Hlaw]]]]]].
  - split; [split|split; [|split]].
    + repeat (constructor; [simpl; intuition discriminate|]). constructor.
    + repeat constructor.
    + simpl. lia.
    + repeat constructor.
    + exists [Str "A"; Str "A"; Str "B"]. split; reflexivity.
  - discriminate.
  - exists aug, ca, sa. split; [exact Hagg|]. split; [exact Hlen|].
    split; [exact Hcols|]. intros i name v Hi. apply close_zero.
    exact (Hlaw 0 ca sa (averages_within_refl ca) (series_within_refl sa) i name v Hi).
Defined.

(** C3, as stated, fails on a sheet with a blank Class cell: the row is in
    no class, and the one class average, 10, is not the subject average, 15.
    It also fails on a sheet with a mark missing: the class means 10 (two
    rows, one mark) and 30 (one row) give 50/3, the subject average is 20. *)
Lemma blank_class_breaks_weighted_mean :
  (wf_frame blank_class /\ numeric_from 3 blank_class /\ rows blank_class <> [] /\
   exists aug ca sa,
     aggregate blank_class = Ok (aug, ca, sa) /\
     g_rows ca = [(Str "A", [f_ 10; f_ 10; f_ 10; f_ 10])] /\
     sa = [("Maths", f_ 15); ("Science", f_ 15); ("English", f_ 15); ("Hindi", f_ 15)] /\
     weighted_class_mean blank_class ca 0 = Qc_of_Z 10 /\
     Qc_of_Z 10 <> Qc_of_Z 15) /\
  (wf_frame missing_maths /\ has_classes missing_maths /\ rows missing_maths <> [] /\
   exists aug ca sa,
     aggregate missing_maths = Ok (aug, ca, sa) /\
     nth_error sa 0 = Some ("Maths", f_ 20) /\
     weighted_class_mean missing_maths ca 0 = Qc_of_Z 50 / Qc_of_Z 3 /\
     Qc_of_Z 50 / Qc_of_Z 3 <> Qc_of_Z 20).
Proof.
  split.
  - split; [split; [|repeat constructor]|].
    { repeat (constructor; [simpl; intuition discriminate|]). constructor. }
    split; [repeat constructor|]. split; [discriminate|].
    destruct (aggregate blank_class) as [[[aug ca] sa]|e] eqn:E;
      vm_compute in E; [|discriminate].
    exists aug, ca, sa. split; [reflexivity|].
    injection E as <- <- <-.
    split; [unfold f_; qc_data|]. split; [unfold f_; qc_data|].
    split; [apply Qc_is_canon; reflexivity|].
    intro K. apply (f_equal this) in K. vm_compute in K. discriminate.
  - split; [split; [|repeat constructor]|].
    { repeat (constructor; [simpl; intuition discriminate|]). constructor. }
    split; [exists [Str "A"; Str "A"; Str "B"]; split; reflexivity|].
    split; [discriminate|].
    destruct (aggregate missing_maths) as [[[aug ca] sa]|e] eqn:E;
      vm_compute in E; [|discriminate].
    exists aug, ca, sa. split; [reflexivity|].
    injection E as <- <- <-.
    split; [unfold f_; cbn [nth_error]; qc_data|].
    split; [apply Qc_is_canon; reflexivity|].
    intro K. apply (f_equal this) in K. vm_compute in K. discriminate.
Qed.

End Aggregator.

(** ** The transaction viewer: further properties *)

Section Viewer.

Import Transactions.

Lemma date_le_refl a : date_le a a.
Proof. unfold date_le. rewrite date_cmp_Gt_iff. lia. Qed.

Lemma date_cmp_not_Gt_flip a b : date_cmp a b = Gt -> date_le b a.
Proof. unfold date_le. rewrite !date_cmp_Gt_iff. lia. Qed.

Lemma date_cmp_Eq_flip a b : date_cmp a b = Eq -> date_le b a.
Proof.
  unfold date_le. rewrite date_cmp_Gt_iff. unfold date_cmp.
  destruct (Nat.compare_spec (year a) (year b));
    destruct (Nat.compare_spec (month a) (month b));
    destruct (Nat.compare_spec (day a) (day b));
    intro K; try discriminate; lia.
Qed.

Lemma datetime_min_le a b :
  date_le (dt_date (datetime_min a b)) (dt_date a) /\
  date_le (dt_date (datetime_min a b)) (dt_date b).
Proof.
  unfold datetime_min, datetime_leb.
  destruct (date_cmp (dt_date a) (dt_date b)) eqn:E.
  - destruct (Nat.leb (dt_time a) (dt_time b)); split;
      try apply date_le_refl; unfold date_le; try congruence.
    now apply date_cmp_Eq_flip.
  - split; [apply date_le_refl|unfold date_le; congruence].
  - split; [now apply date_cmp_not_Gt_flip|apply date_le_refl].
Qed.

Lemma datetime_max_ge a b :
  date_le (dt_date a) (dt_date (datetime_max a b)) /\
  date_le (dt_date b) (dt_date (datetime_max a b)).
Proof.
  unfold datetime_max, datetime_leb.
  destruct (date_cmp (dt_date a) (dt_date b)) eqn:E.
  - destruct (Nat.leb (dt_time a) (dt_time b)); split;
      try apply date_le_refl; unfold date_le; try congruence.
    now apply date_cmp_Eq_flip.
  - split; [unfold date_le; congruence|apply date_le_refl].
  - split; [apply date_le_refl|now apply date_cmp_not_Gt_flip].
Qed.

Lemma fold_min_le ts t0 :
  date_le (dt_date (fold_left datetime_min ts t0)) (dt_date t0) /\
  forall t, In t ts -> date_le (dt_date (fold_left datetime_min ts t0)) (dt_date t).
Proof.
  revert t0. induction ts as [|t ts IH]; intro t0; simpl.
  - split; [apply date_le_refl|tauto].
  - destruct (IH (datetime_min t0 t)) as [H0 H1].
    destruct (datetime_min_le t0 t) as [Ha Hb]. split.
    + exact (date_le_trans _ _ _ H0 Ha).
    + intros x [<-|Hx]; [exact (date_le_trans _ _ _ H0 Hb)|now apply H1].
Qed.

Lemma fold_max_ge ts t0 :
  date_le (dt_date t0) (dt_date (fold_left datetime_max ts t0)) /\
  forall t, In t ts -> date_le (dt_date t) (dt_date (fold_left datetime_max ts t0)).
Proof.
  revert t0. induction ts as [|t ts IH]; intro t0; simpl.
  - split; [apply date_le_refl|tauto].
  - destruct (IH (datetime_max t0 t)) as [H0 H1].
    destruct (datetime_max_ge t0 t) as [Ha Hb]. split.
    + exact (date_le_trans _ _ _ Ha H0).
    + intros x [<-|Hx]; [exact (date_le_trans _ _ _ Hb H0)|now apply H1].
Qed.

Lemma In_timestamps df r t :
  In r df -> transaction_date r = Some t -> In t (timestamps df).
Proof.
  intros Hr Ht. unfold timestamps. apply in_flat_map. exists r.
  split; [exact Hr|]. rewrite Ht. now left.
Qed.

Lemma min_date_le df lo r t :
  min_date df = Some lo -> In r df -> transaction_date r = Some t ->
  date_le lo (dt_date t).
Proof.
  intros H Hr Ht. pose proof (In_timestamps df r t Hr Ht) as Hin.
  unfold min_date in H. destruct (timestamps df) as [|t0 ts]; [discriminate|].
  injection H as <-. destruct (fold_min_le ts t0) as [H0 H1].
  destruct Hin as [<-|Hin]; [exact H0|now apply H1].
Qed.

Lemma max_date_ge df hi r t :
  max_date df = Some hi -> In r df -> transaction_date r = Some t ->
  date_le (dt_date t) hi.
Proof.
  intros H Hr Ht. pose proof (In_timestamps df r t Hr Ht) as Hin.
  unfold max_date in H. destruct (timestamps df) as [|t0 ts]; [discriminate|].
  injection H as <-. destruct (fold_max_ge ts t0) as [H0 H1].
  destruct Hin as [<-|Hin]; [exact H0|now apply H1].
Qed.

Lemma filter_all {A : Type} (f : A -> bool) (l : list A) :
  (forall x, In x l -> f x = true) -> filter f l = l.
Proof.
  induction l as [|a l IH]; intro H; simpl; [reflexivity|].
  rewrite (H a (or_introl eq_refl)). f_equal. apply IH.
  intros x Hx. apply H. now right.
Qed.

Lemma filter_engine_pair df c :
  filter_engine df c = (filter (keptb c) df, key_metrics (filter (keptb c) df)).
Proof.
  pose proof (filtered_keptb df c) as H. unfold filter_engine in *. simpl in H.
  now rewrite H.
Qed.

(** X1. On a frame with at least one dated transaction, with the date inputs
    at (or beyond) the earliest and latest transaction day and no amount test
    (type All, or condition Any Amount), the page shows, in order, exactly
    the transactions that have a date, with the metrics of those rows; when
    no date is missing that is every transaction, n of n. *)
Theorem full_range_shows_all (df : frame) (c : criteria) (lo hi : date) :
  min_date df = Some lo ->
  max_date df = Some hi ->
  date_le (start_date c) lo ->
  date_le hi (end_date c) ->
  amount_type c = All \/ filter_condition c = AnyAmount ->
  dashboard df c = Some (dated df, key_metrics (dated df)) /\
  info_counts df c = (List.length (dated df), List.length df) /\
  ((forall r, In r df -> transaction_date r <> None) ->
   dashboard df c = Some (df, key_metrics df) /\
   info_counts df c = (List.length df, List.length df)).
Proof.
  intros Hlo Hhi Hs He Hamt.
  assert (filter (keptb c) df = dated df) as E.
  { unfold dated. apply filter_ext_in. intros r Hr.
    destruct (transaction_date r) as [t|] eqn:Ht.
    - apply keptb_kept. split.
      + unfold in_date_range, row_date. rewrite Ht. cbn [option_map]. split.
        * exact (date_le_trans _ _ _ Hs (min_date_le df lo r t Hlo Hr Ht)).
        * exact (date_le_trans _ _ _ (max_date_ge df hi r t Hhi Hr Ht) He).
      + unfold amount_ok. destruct Hamt as [-> | ->]; [exact I|].
        now destruct (amount_type c).
    - unfold keptb, in_dates, row_date. now rewrite Ht. }
  assert (dashboard df c = Some (dated df, key_metrics (dated df))) as D.
  { unfold dashboard. destruct df as [|r rs]; [discriminate|].
    now rewrite filter_engine_pair, E. }
  assert (info_counts df c = (List.length (dated df), List.length df)) as I.
  { unfold info_counts. now rewrite filter_engine_pair, E. }
  split; [exact D|]. split; [exact I|].
  intro Hall.
  assert (dated df = df) as E'.
  { unfold dated. apply filter_all. intros r Hr.
    specialize (Hall r Hr). now destruct (transaction_date r). }
  rewrite E' in D, I. now split.
Qed.

Lemma full_range_shows_all_witness :
  let c := mkcriteria (mkdate 2024 1 1) (mkdate 2024 1 1) All AnyAmount 0 0 in
  default_criteria undated_txns = Some c /\
  dashboard undated_txns c = Some (dated undated_txns, key_metrics (dated undated_txns)) /\
  info_counts undated_txns c = (1%nat, 2%nat).
Proof.
  split; [reflexivity|].
  pose proof (full_range_shows_all undated_txns
                (mkcriteria (mkdate 2024 1 1) (mkdate 2024 1 1) All AnyAmount 0 0)
                (mkdate 2024 1 1) (mkdate 2024 1 1)) as H.
  destruct H as [D [I _]].
  - reflexivity.
  - reflexivity.
  - unfold date_le. simpl. discriminate.
  - unfold date_le. simpl. discriminate.
  - now left.
  - split; [exact D|exact I].
Defined.

Lemma filter_twice {A : Type} (f : A -> bool) (l : list A) :
  filter f (filter f l) = filter f l.
Proof.
  rewrite filter_filter. apply filter_ext. intro a. apply andb_diag.
Qed.

(** X2. Filtering what the page already shows with the same criteria changes
    nothing: same rows, same metrics. *)
Theorem refilter_same (df : frame) (c : criteria) :
  filter_engine (fst (filter_engine df c)) c = filter_engine df c.
Proof.
  rewrite !filter_engine_pair. simpl. now rewrite filter_twice.
Qed.

(** X3. Narrowing the date range, other settings unchanged, only removes
    rows: the narrower result is what the same criteria select from the
    wider result, and each of its rows is in the wider result. *)
Theorem narrower_dates_refine (df : frame) (c c' : criteria) :
  date_le (start_date c') (start_date c) ->
  date_le (end_date c) (end_date c') ->
  amount_type c' = amount_type c ->
  filter_condition c' = filter_condition c ->
  amount1 c' = amount1 c ->
  amount2 c' = amount2 c ->
  filter_engine (fst (filter_engine df c')) c = filter_engine df c /\
  (forall r, In r (fst (filter_engine df c)) -> In r (fst (filter_engine df c'))).
Proof.
  intros Hs He Ht Hc H1 H2.
  assert (forall r, keptb c r = true -> keptb c' r = true) as Himp.
  { intros r Hr. apply keptb_kept in Hr. apply keptb_kept.
    destruct Hr as [Hd Hamt]. split.
    - unfold in_date_range in *. destruct (row_date r) as [d|]; [|exact Hd].
      destruct Hd as [Ha Hb]. split.
      + exact (date_le_trans _ _ _ Hs Ha).
      + exact (date_le_trans _ _ _ Hb He).
    - unfold amount_ok in *. now rewrite Ht, Hc, H1, H2. }
  split.
  - rewrite !filter_engine_pair. simpl.
    assert (filter (keptb c) (filter (keptb c') df) = filter (keptb c) df) as E.
    { rewrite filter_filter. apply filter_ext. intro r.
      destruct (keptb c r) eqn:K.
      - now rewrite (Himp r K).
      - apply andb_false_r. }
    now rewrite E.
  - intros r. rewrite !filter_engine_pair. simpl. rewrite !filter_In.
    intros [Hin K]. split; [exact Hin|now apply Himp].
Qed.

Lemma narrower_dates_refine_witness :
  filter_engine
    (fst (filter_engine sample_txns
            (mkcriteria (mkdate 2024 1 1) (mkdate 2024 2 1) Credit GreaterThan 0 0)))
    (mkcriteria (mkdate 2024 1 2) (mkdate 2024 1 31) Credit GreaterThan 0 0)
  = filter_engine sample_txns
      (mkcriteria (mkdate 2024 1 2) (mkdate 2024 1 31) Credit GreaterThan 0 0) /\
  (forall r,
      In r (fst (filter_engine sample_txns
                   (mkcriteria (mkdate 2024 1 2) (mkdate 2024 1 31) Credit GreaterThan 0 0))) ->
      In r (fst (filter_engine sample_txns
                   (mkcriteria (mkdate 2024 1 1) (mkdate 2024 2 1) Credit GreaterThan 0 0)))).
Proof.
  apply (narrower_dates_refine sample_txns
           (mkcriteria (mkdate 2024 1 2) (mkdate 2024 1 31) Credit GreaterThan 0 0)
           (mkcriteria (mkdate 2024 1 1) (mkdate 2024 2 1) Credit GreaterThan 0 0));
    try reflexivity; unfold date_le; simpl; discriminate.
Defined.

(** *** Splitting at a threshold *)

Lemma threshold_cases (a x : Qc) :
  (Qcltb a x = true /\ Qcltb x a = false /\ between a a x = false) \/
  (Qcltb a x = false /\ Qcltb x a = true /\ between a a x = false) \/
  (Qcltb a x = false /\ Qcltb x a = false /\ between a a x = true).
Proof.
  assert (forall p q : Qc, p < q -> Qcltb q p = false) as Hasym.
  { intros p q H. destruct (Qcltb q p) eqn:E; [|reflexivity].
    apply Qcltb_lt in E. exfalso. exact (Qclt_not_le _ _ H (Qclt_le_weak _ _ E)). }
  assert (forall p q : Qc, p < q -> Qcleb q p = false) as Hnle.
  { intros p q H. destruct (Qcleb q p) eqn:E; [|reflexivity].
    apply Qcleb_le in E. exfalso. exact (Qclt_not_le _ _ H E). }
  unfold between.
  destruct (Qclt_le_dec a x) as [H|H].
  - left. rewrite (proj2 (Qcltb_lt a x) H), (Hasym a x H), (Hnle a x H).
    now rewrite andb_false_r.
  - destruct (Qcle_lt_or_eq _ _ H) as [H'|H'].
    + right. left. rewrite (proj2 (Qcltb_lt x a) H'), (Hasym x a H'), (Hnle x a H').
      auto.
    + right. right. subst x.
      assert (Qcltb a a = false) as E.
      { destruct (Qcltb a a) eqn:E; [|reflexivity]. apply Qcltb_lt in E.
        exfalso. exact (Qclt_not_le _ _ E (Qcle_refl a)). }
      rewrite E, (proj2 (Qcleb_le a a) (Qcle_refl a)). auto.
Qed.

Lemma three_way_count {A : Type} (d f1 f2 f3 : A -> bool) (l : list A) :
  (forall x, (f1 x = true /\ f2 x = false /\ f3 x = false) \/
             (f1 x = false /\ f2 x = true /\ f3 x = false) \/
             (f1 x = false /\ f2 x = false /\ f3 x = true)) ->
  (List.length (filter (fun x => d x && f1 x) l)
   + List.length (filter (fun x => d x && f2 x) l)
   + List.length (filter (fun x => d x && f3 x) l)
   = List.length (filter d l))%nat.
Proof.
  intro H. induction l as [|a l IH]; simpl; [reflexivity|].
  destruct (d a); simpl; [|exact IH].
  destruct (H a) as [[-> [-> ->]]|[[-> [-> ->]]|[-> [-> ->]]]]; simpl; lia.
Qed.

Lemma keptb_with_condition c cond a1 a2 r :
  keptb (with_condition c cond a1 a2) r
  = in_dates c r && amount_okb (with_condition c cond a1 a2) r.
Proof. reflexivity. Qed.

Lemma filter_threshold df c cond a1 a2 (col : txn -> Qc) (f : Qc -> bool) :
  (forall r, amount_okb (with_condition c cond a1 a2) r = f (col r)) ->
  filter (keptb (with_condition c cond a1 a2)) df
  = filter (fun r => in_dates c r && f (col r)) df.
Proof.
  intro H. apply filter_ext. intro r.
  now rewrite keptb_with_condition, H.
Qed.

(** X4. For a Credit or Debit view and a threshold [a], the rows shown under
    "Greater Than a", "Less Than a" and "Between a and a" split the rows
    shown under "Any Amount" for the same dates: a row of "Any Amount" is in
    one of the three views, no row is in two of them, and the three counts
    add up to the count of "Any Amount". *)
Theorem threshold_split (df : frame) (c : criteria) (a : Qc) :
  amount_type c = Credit \/ amount_type c = Debit ->
  let above := fst (filter_engine df (with_condition c GreaterThan a 0)) in
  let below := fst (filter_engine df (with_condition c LessThan a 0)) in
  let equal := fst (filter_engine df (with_condition c Between a a)) in
  let any := fst (filter_engine df (with_condition c AnyAmount 0 0)) in
  (List.length above + List.length below + List.length equal
   = List.length any)%nat /\
  (forall r, In r any <-> In r above \/ In r below \/ In r equal) /\
  (forall r, ~ (In r above /\ In r below) /\
             ~ (In r above /\ In r equal) /\
             ~ (In r below /\ In r equal)).
Proof.
  intros Ht. cbv zeta. rewrite !filter_engine_pair. cbn [fst snd].
  assert (exists col : txn -> Qc,
             (forall r, amount_okb (with_condition c GreaterThan a 0) r
                        = Qcltb a (col r)) /\
             (forall r, amount_okb (with_condition c LessThan a 0) r
                        = Qcltb (col r) a) /\
             (forall r, amount_okb (with_condition c Between a a) r
                        = between a a (col r))) as [col [Hg [Hl He]]].
  { destruct Ht as [Ht|Ht]; [exists credit_amount|exists debit_amount];
      repeat split; intro r; unfold amount_okb; simpl; rewrite Ht;
      try reflexivity; apply orb_diag. }
  rewrite (filter_threshold df c GreaterThan a 0 col (fun x => Qcltb a x) Hg).
  rewrite (filter_threshold df c LessThan a 0 col (fun x => Qcltb x a) Hl).
  rewrite (filter_threshold df c Between a a col (fun x => between a a x) He).
  assert (filter (keptb (with_condition c AnyAmount 0 0)) df = filter (in_dates c) df)
    as Hany.
  { apply filter_ext. intro r. rewrite keptb_with_condition.
    unfold amount_okb. simpl. destruct (amount_type c); apply andb_true_r. }
  rewrite Hany.
  split; [|split].
  - exact (three_way_count (in_dates c)
             (fun r => Qcltb a (col r)) (fun r => Qcltb (col r) a)
             (fun r => between a a (col r)) df
             (fun r => threshold_cases a (col r))).
  - intro r. rewrite !filter_In.
    destruct (threshold_cases a (col r)) as [[-> [-> ->]]|[[-> [-> ->]]|[-> [-> ->]]]];
      destruct (in_dates c r); simpl; intuition congruence.
  - intro r. rewrite !filter_In.
    destruct (threshold_cases a (col r)) as [[-> [-> ->]]|[[-> [-> ->]]|[-> [-> ->]]]];
      destruct (in_dates c r); simpl; intuition congruence.
Qed.

Lemma threshold_split_witness :
  let c := between_criteria in
  let a := Qc_of_Z 500 in
  let above := fst (filter_engine sample_txns (with_condition c GreaterThan a 0)) in
  let below := fst (filter_engine sample_txns (with_condition c LessThan a 0)) in
  let equal := fst (filter_engine sample_txns (with_condition c Between a a)) in
  let any := fst (filter_engine sample_txns (with_condition c AnyAmount 0 0)) in
  (List.length above + List.length below + List.length equal
   = List.length any)%nat /\
  (forall r, In r any <-> In r above \/ In r below \/ In r equal) /\
  (forall r, ~ (In r above /\ In r below) /\
             ~ (In r above /\ In r equal) /\
             ~ (In r below /\ In r equal)).
Proof.
  apply (threshold_split sample_txns between_criteria (Qc_of_Z 500)).
  left. reflexivity.
Defined.

(** *** Totals of amounts that are not negative *)

Lemma Qc_of_Z_le_iff a b : Qc_of_Z a <= Qc_of_Z b <-> (a <= b)%Z.
Proof.
  unfold Qcle, Qc_of_Z, Q2Qc. cbn [this]. rewrite !Qred_correct.
  rewrite <- Zle_Qle. reflexivity.
Qed.

Lemma wrap64_range z : in_int64 (wrap64 z).
Proof.
  unfold in_int64, wrap64.
  pose proof (Z.mod_pos_bound (z + 2 ^ 63) (2 ^ 64)). lia.
Qed.

Lemma Zsum_filter_bounds {A : Type} (v : A -> Z) (f : A -> bool) (l : list A) :
  (forall x, In x l -> (0 <= v x)%Z) ->
  (0 <= Zsum (map v (filter f l)) <= Zsum (map v l))%Z.
Proof.
  induction l as [|a l IH]; intro H; simpl; [unfold Zsum; simpl; lia|].
  assert (0 <= Zsum (map v (filter f l)) <= Zsum (map v l))%Z as IH'.
  { apply IH. intros x Hx. apply H. now right. }
  pose proof (H a (or_introl eq_refl)) as Ha.
  unfold Zsum in *. destruct (f a); simpl; lia.
Qed.

Lemma series_sum_ints {A : Type} (cell : A -> number) (l : list A) :
  (forall x, In x l -> is_int64 (cell x) = true) ->
  in_int64 (Zsum (map (fun x => int_of (cell x)) l)) ->
  series_sum (map cell l) = Int64 (Zsum (map (fun x => int_of (cell x)) l)).
Proof.
  intros Hint Hfit. unfold series_sum.
  assert (forallb is_int64 (map cell l) = true) as E.
  { apply forallb_forall. intros n Hn. apply in_map_iff in Hn.
    destruct Hn as [x [<- Hx]]. now apply Hint. }
  rewrite E, map_map. now rewrite (wrap64_fits _ Hfit).
Qed.

Lemma value_int_sum {A : Type} (cell : A -> number) (l : list A) :
  (forall x, In x l -> is_int64 (cell x) = true) ->
  Qcsum (map (fun x => value (cell x)) l)
  = Qc_of_Z (Zsum (map (fun x => int_of (cell x)) l)).
Proof.
  intro Hint. rewrite Qc_of_Z_sum, map_map. f_equal.
  apply map_ext_in. intros x Hx. specialize (Hint x Hx).
  destruct (cell x); [reflexivity|discriminate].
Qed.

(** X5. When both amount columns are int64, no amount is negative and the
    sums of the two columns over the whole frame stay within int64, the
    totals of any filtered view lie between 0 and the totals of the whole
    frame, the net flow lies between minus the total debit and the total
    credit, and the count shown never exceeds the number of transactions. *)
Theorem filtered_totals_bounded (df : frame) (c : criteria) :
  (forall r, In r df ->
             is_int64 (credit_cell r) = true /\ is_int64 (debit_cell r) = true) ->
  (forall r, In r df -> 0 <= credit_amount r /\ 0 <= debit_amount r) ->
  in_int64 (Zsum (map (fun r => int_of (credit_cell r)) df)) ->
  in_int64 (Zsum (map (fun r => int_of (debit_cell r)) df)) ->
  let m := snd (filter_engine df c) in
  0 <= total_credit m /\ total_credit m <= Qcsum (map credit_amount df) /\
  0 <= total_debit m /\ total_debit m <= Qcsum (map debit_amount df) /\
  - total_debit m <= net_flow m /\ net_flow m <= total_credit m /\
  (fst (info_counts df c) <= snd (info_counts df c))%nat.
Proof.
  intros Hint Hpos Hfc Hfd. cbv zeta. unfold info_counts.
  rewrite filter_engine_pair. cbn [fst snd].
  set (F := filter (keptb c) df).
  assert (forall r, In r df -> (0 <= int_of (credit_cell r))%Z) as Pc.
  { intros r Hr. destruct (Hint r Hr) as [I _]. destruct (Hpos r Hr) as [P _].
    unfold credit_amount in P. destruct (credit_cell r); [|discriminate].
    now apply (Qc_of_Z_le_iff 0 z). }
  assert (forall r, In r df -> (0 <= int_of (debit_cell r))%Z) as Pd.
  { intros r Hr. destruct (Hint r Hr) as [_ I]. destruct (Hpos r Hr) as [_ P].
    unfold debit_amount in P. destruct (debit_cell r); [|discriminate].
    now apply (Qc_of_Z_le_iff 0 z). }
  pose proof (Zsum_filter_bounds (fun r => int_of (credit_cell r)) (keptb c) df Pc) as Bc.
  pose proof (Zsum_filter_bounds (fun r => int_of (debit_cell r)) (keptb c) df Pd) as Bd.
  fold F in Bc, Bd.
  assert (forall r, In r F -> is_int64 (credit_cell r) = true) as Ic.
  { intros r Hr. apply filter_In in Hr. now apply Hint. }
  assert (forall r, In r F -> is_int64 (debit_cell r) = true) as Id.
  { intros r Hr. apply filter_In in Hr. now apply Hint. }
  unfold in_int64 in Hfc, Hfd.
  unfold key_metrics. cbn [total_credit total_debit net_flow].
  rewrite (series_sum_ints credit_cell F Ic) by (unfold in_int64; lia).
  rewrite (series_sum_ints debit_cell F Id) by (unfold in_int64; lia).
  cbn [number_sub value].
  rewrite wrap64_fits by (unfold in_int64; lia).
  unfold credit_amount, debit_amount.
  rewrite (value_int_sum credit_cell df (fun r Hr => proj1 (Hint r Hr))).
  rewrite (value_int_sum debit_cell df (fun r Hr => proj2 (Hint r Hr))).
  rewrite <- Qc_of_Z_opp.
  change (0 : Qc) with (Qc_of_Z 0).
  repeat split; try (apply Qc_of_Z_le; lia).
  apply filter_length_le.
Qed.

Lemma filtered_totals_bounded_witness :
  let m := snd (filter_engine sample_txns between_criteria) in
  0 <= total_credit m /\ total_credit m <= Qcsum (map credit_amount sample_txns) /\
  0 <= total_debit m /\ total_debit m <= Qcsum (map debit_amount sample_txns) /\
  - total_debit m <= net_flow m /\ net_flow m <= total_credit m /\
  (fst (info_counts sample_txns between_criteria)
   <= snd (info_counts sample_txns between_criteria))%nat.
Proof.
  apply (filtered_totals_bounded sample_txns between_criteria).
  - intros r [<-|[<-|[<-|[]]]]; split; reflexivity.
  - intros r [<-|[<-|[<-|[]]]]; split; vm_compute; discriminate.
  - vm_compute. split; [discriminate|reflexivity].
  - vm_compute. split; [discriminate|reflexivity].
Defined.

(** *** Views of one kind of transaction *)

Lemma Qcsum_all_zero (l : list Qc) :
  (forall x, In x l -> x = 0) -> Qcsum l = 0.
Proof.
  induction l as [|a l IH]; intro H; simpl; [reflexivity|].
  rewrite (H a (or_introl eq_refl)), IH; [ring|].
  intros x Hx. apply H. now right.
Qed.

Lemma above_threshold_nonzero (a x : Qc) : 0 <= a -> Qcltb a x = true -> x <> 0.
Proof.
  intros Ha H ->. apply Qcltb_lt in H. exact (Qclt_not_le _ _ H Ha).
Qed.

Lemma Zsum_all_zero (l : list Z) :
  (forall x, In x l -> x = 0%Z) -> Zsum l = 0%Z.
Proof.
  induction l as [|a l IH]; intro H; simpl; [reflexivity|].
  rewrite (H a (or_introl eq_refl)), IH; [reflexivity|].
  intros x Hx. apply H. now right.
Qed.

Lemma Qc_of_Z_zero z : Qc_of_Z z = 0 -> z = 0%Z.
Proof.
  intro H. change (0 : Qc) with (Qc_of_Z 0) in H.
  apply Z.le_antisymm; apply Qc_of_Z_le_iff; rewrite H; apply Qcle_refl.
Qed.

Lemma series_sum_all_zero col :
  (forall n, In n col -> value n = 0) ->
  series_sum col = Int64 0 \/ series_sum col = Float64 0.
Proof.
  intro H. unfold series_sum. destruct (forallb is_int64 col) eqn:E.
  - left. rewrite Zsum_all_zero; [reflexivity|].
    intros x Hx. apply in_map_iff in Hx. destruct Hx as [n [<- Hn]].
    specialize (H n Hn). destruct n as [z|q]; cbn [int_of]; [|reflexivity].
    now apply Qc_of_Z_zero.
  - right. rewrite Qcsum_all_zero; [reflexivity|].
    intros x Hx. apply in_map_iff in Hx. destruct Hx as [n [<- Hn]].
    now apply H.
Qed.

Lemma series_sum_int_range col x : series_sum col = Int64 x -> in_int64 x.
Proof.
  unfold series_sum. destruct (forallb is_int64 col); [|discriminate].
  intro H. injection H as <-. apply wrap64_range.
Qed.

Lemma number_sub_zero_r a b :
  (forall x, a = Int64 x -> in_int64 x) ->
  b = Int64 0 \/ b = Float64 0 ->
  value b = 0 /\ value (number_sub a b) = value a.
Proof.
  intros Ha [-> | ->]; (split; [reflexivity|]); destruct a as [x|q];
    cbn [number_sub value].
  - rewrite Z.sub_0_r, (wrap64_fits x (Ha x eq_refl)). reflexivity.
  - change (Qc_of_Z 0) with (0 : Qc). ring.
  - ring.
  - ring.
Qed.

Lemma number_sub_zero_l a b :
  (forall y, b = Int64 y -> in_int64 y) ->
  a = Int64 0 \/ a = Float64 0 ->
  value a = 0 /\
  (value b <> Qc_of_Z (- 2 ^ 63) -> value (number_sub a b) = - value b).
Proof.
  intros Hb [-> | ->]; (split; [reflexivity|]); destruct b as [y|q];
    cbn [number_sub value]; intro Hne.
  - destruct (Z.eq_dec y (- 2 ^ 63)) as [->|Hy]; [now elim Hne|].
    pose proof (Hb y eq_refl) as R. unfold in_int64 in R.
    rewrite wrap64_fits by (unfold in_int64; lia).
    rewrite <- Qc_of_Z_opp. f_equal.
  - change (Qc_of_Z 0) with (0 : Qc). ring.
  - ring.
  - ring.
Qed.

Lemma amount_cells_zero (df : frame) (c : criteria) (cell : txn -> number) :
  (forall r, In r df -> keptb c r = true -> value (cell r) = 0) ->
  forall n, In n (map cell (filter (keptb c) df)) -> value n = 0.
Proof.
  intros H n Hn. apply in_map_iff in Hn. destruct Hn as [r [<- Hr]].
  apply filter_In in Hr. now apply H.
Qed.

(** X6. When every transaction is a credit or a debit but not both (one of
    the two amounts is 0) and the threshold is not negative, the view
    "Credit, Greater Than" shows credits only: its total debit is 0 and its
    net flow is its total credit.  Likewise "Debit, Greater Than" has total
    credit 0, and its net flow is minus its total debit unless that total is
    the least int64 value -2^63, whose negation does not exist in int64. *)
Theorem greater_than_view_is_one_sided (df : frame) (c : criteria) :
  (forall r, In r df -> credit_amount r = 0 \/ debit_amount r = 0) ->
  filter_condition c = GreaterThan ->
  0 <= amount1 c ->
  let m := snd (filter_engine df c) in
  (amount_type c = Credit -> total_debit m = 0 /\ net_flow m = total_credit m) /\
  (amount_type c = Debit ->
   total_credit m = 0 /\
   (total_debit m <> Qc_of_Z (- 2 ^ 63) -> net_flow m = - total_debit m)).
Proof.
  intros Hone Hcond Ha. cbv zeta. rewrite filter_engine_pair. cbn [snd].
  unfold key_metrics. cbn [total_credit total_debit net_flow].
  split; intro Ht.
  - apply number_sub_zero_r; [apply series_sum_int_range|].
    apply series_sum_all_zero. apply amount_cells_zero. intros r Hin Hk.
    unfold keptb in Hk. apply andb_true_iff in Hk. destruct Hk as [_ Hk].
    unfold amount_okb in Hk. rewrite Ht, Hcond in Hk.
    destruct (Hone r Hin) as [K|K]; [|exact K].
    exfalso. exact (above_threshold_nonzero _ _ Ha Hk K).
  - apply number_sub_zero_l; [apply series_sum_int_range|].
    apply series_sum_all_zero. apply amount_cells_zero. intros r Hin Hk.
    unfold keptb in Hk. apply andb_true_iff in Hk. destruct Hk as [_ Hk].
    unfold amount_okb in Hk. rewrite Ht, Hcond in Hk.
    destruct (Hone r Hin) as [K|K]; [exact K|].
    exfalso. exact (above_threshold_nonzero _ _ Ha Hk K).
Qed.

Lemma greater_than_view_is_one_sided_witness :
  let c := mkcriteria (mkdate 2024 1 1) (mkdate 2024 2 1) Credit GreaterThan
                      (Qc_of_Z 100) 0 in
  let m := snd (filter_engine sample_txns c) in
  (amount_type c = Credit -> total_debit m = 0 /\ net_flow m = total_credit m) /\
  (amount_type c = Debit ->
   total_credit m = 0 /\
   (total_debit m <> Qc_of_Z (- 2 ^ 63) -> net_flow m = - total_debit m)).
Proof.
  apply (greater_than_view_is_one_sided sample_txns
           (mkcriteria (mkdate 2024 1 1) (mkdate 2024 2 1) Credit GreaterThan
                       (Qc_of_Z 100) 0)).
  - intros r [<-|[<-|[<-|[]]]]; [right|left|right]; apply Qc_is_canon; reflexivity.
  - reflexivity.
  - vm_compute. discriminate.
Defined.

End Viewer.

(** ** The aggregator: further properties *)

Section Handler.

Import Marks.

(** *** The two assignments, row by row *)

Lemma setitem_rows_map d name (f : list cell -> cell) :
  setitem d name (map f (rows d))
  = {| columns := add_label (columns d) name;
       rows := map (fun r => set_cell (columns d) name (f r) r) (rows d) |}.
Proof.
  unfold setitem, add_label, set_cell.
  destruct (index_of name (columns d)); f_equal;
    rewrite <- (map_id (rows d)) at 1; rewrite combine_map_map, map_map;
    reflexivity.
Qed.

Lemma augment_by_rows df :
  rows_wf df -> numeric_from 3 df -> (3 < List.length (columns df))%nat ->
  augment df
  = Ok {| columns := add_label (add_label (columns df) "Total Marks") "Average Marks";
          rows := map (augment_row (int_marks df) (columns df)) (rows df) |}.
Proof.
  intros Hwf Hnum H3. rewrite (augment_ok df Hwf Hnum H3).
  rewrite (setitem_rows_map df "Total Marks" (row_total (int_marks df))).
  set (df1 := {| columns := add_label (columns df) "Total Marks";
                 rows := map (fun r => set_cell (columns df) "Total Marks"
                                         (row_total (int_marks df) r) r)
                             (rows df) |}).
  rewrite (setitem_rows_map df1 "Average Marks" average_of).
  unfold df1. cbn [columns rows]. rewrite map_map. reflexivity.
Qed.

Lemma In_add_label cols name x :
  In x (add_label cols name) <-> In x cols \/ x = name.
Proof.
  unfold add_label. destruct (index_of name cols) as [i|] eqn:E.
  - split; [auto|]. intros [H| ->]; [exact H|].
    apply index_of_Some in E. exact (nth_error_In _ _ E).
  - rewrite in_app_iff. simpl. intuition.
Qed.

Lemma length_add_label cols name :
  (List.length cols <= List.length (add_label cols name) <= List.length cols + 1)%nat.
Proof.
  unfold add_label. destruct (index_of name cols); [lia|].
  rewrite length_app. simpl. lia.
Qed.

Lemma NoDup_add_label cols name : NoDup cols -> NoDup (add_label cols name).
Proof.
  intro H. unfold add_label. destruct (index_of name cols) eqn:E; [exact H|].
  apply NoDup_app; [exact H|repeat constructor; auto|].
  intros x Hx [<-|[]]. exact (index_of_None_not_In _ _ E Hx).
Qed.

Lemma index_of_add_label_other cols name name' :
  name' <> name -> index_of name' (add_label cols name) = index_of name' cols.
Proof.
  intro H. unfold add_label. destruct (index_of name cols); [reflexivity|].
  now apply index_of_app_other.
Qed.

Lemma length_set_cell cols name v r :
  List.length r = List.length cols ->
  List.length (set_cell cols name v r) = List.length (add_label cols name).
Proof.
  intro H. unfold set_cell, add_label. destruct (index_of name cols).
  - now rewrite length_set_nth.
  - rewrite !length_app. simpl. lia.
Qed.

Lemma nth_set_cell_other cols name name' v r j :
  List.length r = List.length cols ->
  index_of name' cols = Some j -> name' <> name ->
  nth j (set_cell cols name v r) NaN = nth j r NaN.
Proof.
  intros Hl Hj Hne. unfold set_cell.
  destruct (index_of name cols) as [i|] eqn:E.
  - apply nth_set_nth_other. intros ->.
    apply index_of_Some in E, Hj. congruence.
  - apply app_nth1. rewrite Hl. exact (index_of_lt _ _ _ Hj).
Qed.

Lemma nth_augment_row int cols name r j :
  List.length r = List.length cols ->
  index_of name cols = Some j ->
  name <> "Total Marks" -> name <> "Average Marks" ->
  nth j (augment_row int cols r) NaN = nth j r NaN.
Proof.
  intros Hl Hj HT HA. unfold augment_row.
  rewrite (nth_set_cell_other _ "Average Marks" name); auto.
  - now apply (nth_set_cell_other _ "Total Marks" name).
  - now apply length_set_cell.
  - now rewrite index_of_add_label_other.
Qed.

(** X7. On a well-formed sheet with more than three columns and numbers from
    position 4 on, lines 15-16 raise nothing and leave a well-formed sheet
    with the same number of rows, whose labels are the old ones plus
    "Total Marks" and "Average Marks", and every column under another label
    is unchanged. *)
Theorem augment_keeps_sheet (df : DataFrame) :
  wf_frame df ->
  numeric_from 3 df ->
  (3 < List.length (columns df))%nat ->
  exists aug,
    augment df = Ok aug /\
    wf_frame aug /\
    List.length (rows aug) = List.length (rows df) /\
    (forall x, In x (columns aug) <->
               In x (columns df) \/ x = "Total Marks" \/ x = "Average Marks") /\
    (forall name, name <> "Total Marks" -> name <> "Average Marks" ->
                  column_of name aug = column_of name df).
Proof.
  intros [Hnd Hwf] Hnum H3.
  set (df1 := setitem df "Total Marks" (map (row_total (int_marks df)) (rows df))).
  set (aug := setitem df1 "Average Marks" (map average_of (rows df1))).
  assert (rows_wf df1) as Hwf1 by apply setitem_rows_wf, Hwf.
  assert (List.length (rows df1) = List.length (rows df)) as Hl1.
  { apply length_rows_setitem. apply length_map. }
  exists aug. split; [exact (augment_ok df Hwf Hnum H3)|].
  split; [|split; [|split]].
  - split; [apply setitem_NoDup, setitem_NoDup, Hnd|apply setitem_rows_wf, Hwf1].
  - unfold aug. rewrite length_rows_setitem; [exact Hl1|apply length_map].
  - intro x. unfold aug, df1. rewrite !setitem_columns.
    fold (add_label (columns df) "Total Marks").
    fold (add_label (add_label (columns df) "Total Marks") "Average Marks").
    rewrite !In_add_label. tauto.
  - intros name HT HA. unfold aug.
    rewrite column_of_setitem_other; [|exact HA|exact Hwf1|apply length_map].
    unfold df1. apply column_of_setitem_other; [exact HT|exact Hwf|apply length_map].
Qed.

Lemma augment_keeps_sheet_witness :
  exists aug,
    augment three_students = Ok aug /\
    wf_frame aug /\
    List.length (rows aug) = List.length (rows three_students) /\
    (forall x, In x (columns aug) <->
               In x (columns three_students) \/ x = "Total Marks" \/ x = "Average Marks") /\
    (forall name, name <> "Total Marks" -> name <> "Average Marks" ->
                  column_of name aug = column_of name three_students).
Proof.
  apply (augment_keeps_sheet three_students).
  - split; [|repeat constructor].
    repeat (constructor; [simpl; intuition discriminate|]). constructor.
  - repeat constructor.
  - simpl. lia.
Defined.

(** X8. A numeric sheet without a "Class" column gets its totals and
    averages, and then line 19 raises KeyError: the handler shows none of
    its three tables. *)
Theorem no_class_column_raises (df : DataFrame) :
  rows_wf df ->
  numeric_from 3 df ->
  (3 < List.length (columns df))%nat ->
  ~ In "Class" (columns df) ->
  (exists aug, augment df = Ok aug) /\ aggregate df = Raise KeyError.
Proof.
  intros Hwf Hnum H3 Hno.
  pose proof (augment_by_rows df Hwf Hnum H3) as Ha.
  split; [eauto|].
  unfold aggregate. rewrite Ha. cbn [bind].
  unfold class_averages, groupby_mean, label_index at 1. cbn [columns].
  rewrite index_of_None; [reflexivity|].
  rewrite !In_add_label. intros [[H|H]|H]; [tauto|discriminate|discriminate].
Qed.

Lemma no_class_column_raises_witness :
  (exists aug,
      augment {| columns := ["Name"; "Roll No"; "Section"; "Maths"];
                 rows := [[Str "Asha"; n_ 1; Str "A"; n_ 10]] |} = Ok aug) /\
  aggregate {| columns := ["Name"; "Roll No"; "Section"; "Maths"];
               rows := [[Str "Asha"; n_ 1; Str "A"; n_ 10]] |} = Raise KeyError.
Proof.
  apply (no_class_column_raises
           {| columns := ["Name"; "Roll No"; "Section"; "Maths"];
              rows := [[Str "Asha"; n_ 1; Str "A"; n_ 10]] |}).
  - repeat constructor.
  - repeat constructor.
  - simpl. lia.
  - simpl. intros [K|[K|[K|[K|[]]]]]; discriminate.
Defined.

(** *** The augmented sheet of a student table *)

Lemma augmented_invariants df :
  wf_frame df -> numeric_from 3 df -> (3 < List.length (columns df))%nat ->
  wf_frame (augmented df) /\ numeric_from 3 (augmented df) /\
  (List.length (columns df) <= List.length (columns (augmented df)))%nat.
Proof.
  intros [Hnd Hwf] Hnum H3.
  pose proof (augment_ok df Hwf Hnum H3) as E.
  rewrite (augment_by_rows df Hwf Hnum H3) in E. injection E as E.
  fold (augmented df) in E. rewrite E.
  split; [|split].
  - split; [apply setitem_NoDup, setitem_NoDup, Hnd|].
    apply setitem_rows_wf, setitem_rows_wf, Hwf.
  - apply setitem_numeric; [apply setitem_numeric; [exact Hnum|]|];
      apply Forall_forall; intros c Hc; apply in_map_iff in Hc;
      destruct Hc as [r [<- _]]; [apply row_total_num|exact I].
  - etransitivity; [|apply length_columns_setitem].
    apply length_columns_setitem.
Qed.

Lemma class_index df :
  has_classes df -> exists key, index_of "Class" (columns df) = Some key.
Proof.
  intros [cs [H _]]. unfold column_of in H.
  destruct (index_of "Class" (columns df)) as [key|]; [eauto|discriminate].
Qed.

Lemma class_index_augmented df key :
  index_of "Class" (columns df) = Some key ->
  index_of "Class" (columns (augmented df)) = Some key.
Proof.
  intro H. unfold augmented. cbn [columns].
  rewrite !index_of_add_label_other by discriminate. exact H.
Qed.

Lemma class_cell_augmented df key r :
  rows_wf df -> index_of "Class" (columns df) = Some key -> In r (rows df) ->
  nth key (augment_row (int_marks df) (columns df) r) NaN = nth key r NaN.
Proof.
  intros Hwf Hkey Hr.
  apply (nth_augment_row (int_marks df) (columns df) "Class"); try discriminate; auto.
  exact (row_length df r Hwf Hr).
Qed.

Lemma aggregate_form df key :
  student_table df -> rows df <> [] ->
  index_of "Class" (columns df) = Some key ->
  aggregate df
  = Ok (augmented df,
        {| g_columns := slice 3 7 (columns (augmented df));
           g_rows := map (fun k => (k, map (group_mean key (augmented df) k)
                                           [3; 4; 5; 6]%nat))
                         (group_keys key (augmented df)) |},
        spec_subject_averages (augmented df)).
Proof.
  intros [[Hnd Hwf] [H7 [Hnum Hcls]]] Hne Hkey.
  assert (3 < List.length (columns df))%nat as H3 by lia.
  destruct (augmented_invariants df (conj Hnd Hwf) Hnum H3) as [Hwfa [Hnuma Hla]].
  unfold aggregate. rewrite (augment_by_rows df Hwf Hnum H3).
  fold (augmented df). cbn [bind].
  rewrite (class_averages_form (augmented df) key Hwfa Hnuma);
    [|lia|now apply class_index_augmented].
  cbn [bind]. unfold subject_averages.
  rewrite (subject_means (augmented df) (proj2 Hwfa)); [reflexivity|lia|exact Hnuma|].
  unfold augmented. cbn [rows]. destruct (rows df); [congruence|discriminate].
Qed.

(** *** The index of the class averages *)

Lemma cell_leb_total a b : cell_leb a b = true \/ cell_leb b a = true.
Proof.
  assert (forall x y : Qc, Qcleb x y = true \/ Qcleb y x = true) as Hq.
  { intros x y. destruct (Qclt_le_dec y x) as [H|H].
    - right. apply Qcleb_le. now apply Qclt_le_weak.
    - left. now apply Qcleb_le. }
  destruct a as [s|x|x|], b as [t|y|y|]; simpl; auto.
  apply String.leb_total.
Qed.

Lemma insert_key_sorted k l :
  Sorted key_le l -> Sorted key_le (insert_key k l).
Proof.
  induction 1 as [|k' l Hs IH Hhd]; simpl.
  - repeat constructor.
  - destruct (cell_leb k k') eqn:E.
    + constructor; [now constructor|]. constructor. exact E.
    + constructor; [exact IH|].
      destruct l as [|k'' l]; simpl.
      * constructor. destruct (cell_leb_total k k'); [congruence|assumption].
      * destruct (cell_leb k k''); constructor.
        -- destruct (cell_leb_total k k'); [congruence|assumption].
        -- now inversion Hhd.
Qed.

Lemma sort_keys_sorted l : Sorted key_le (sort_keys l).
Proof.
  induction l as [|k l IH]; simpl; [constructor|]. now apply insert_key_sorted.
Qed.

Lemma group_keys_augmented df key cs k :
  rows_wf df -> index_of "Class" (columns df) = Some key ->
  column_of "Class" df = Some cs -> forallb notna cs = true ->
  In k (group_keys key (augmented df)) <-> In k cs.
Proof.
  intros Hwf Hkey Hcs Hna.
  unfold column_of in Hcs. rewrite Hkey in Hcs. simpl in Hcs. injection Hcs as <-.
  rewrite In_group_keys. unfold augmented, cells_at. cbn [rows]. split.
  - intros [r' [Hr' [Hk _]]]. apply in_map_iff in Hr'. destruct Hr' as [r [<- Hr]].
    rewrite (class_cell_augmented df key r Hwf Hkey Hr) in Hk.
    apply in_map_iff. eauto.
  - intro Hk. apply in_map_iff in Hk. destruct Hk as [r [Hk Hr]].
    exists (augment_row (int_marks df) (columns df) r). split; [now apply in_map|]. split.
    + now rewrite (class_cell_augmented df key r Hwf Hkey Hr).
    + rewrite forallb_forall in Hna. apply Hna. rewrite <- Hk.
      apply in_map_iff. eauto.
Qed.

(** X9. On a non-empty student table the class averages have one row for
    each class that occurs in the Class column and no other, no class twice,
    in ascending order of the class, each row holding four values. *)
Theorem class_averages_index (df : DataFrame) (cs : list cell) :
  student_table df ->
  rows df <> [] ->
  column_of "Class" df = Some cs ->
  exists aug ca sa,
    aggregate df = Ok (aug, ca, sa) /\
    NoDup (class_keys ca) /\
    Sorted key_le (class_keys ca) /\
    (forall k, In k (class_keys ca) <-> In k cs) /\
    (forall k ms, In (k, ms) (g_rows ca) -> List.length ms = 4%nat).
Proof.
  intros Hst Hne Hcs.
  destruct Hst as [[Hnd Hwf] [H7 [Hnum Hcls]]].
  destruct (class_index df Hcls) as [key Hkey].
  assert (forallb notna cs = true) as Hna.
  { destruct Hcls as [cs' [Hcs' Hna]]. congruence. }
  eexists _, _, _. split.
  - apply (aggregate_form df key); [repeat split; assumption|exact Hne|exact Hkey].
  - unfold class_keys. cbn [g_rows]. rewrite map_map. cbn [fst]. rewrite map_id.
    split; [apply NoDup_group_keys|]. split; [apply sort_keys_sorted|]. split.
    + intro k. now apply (group_keys_augmented df key cs k).
    + intros k ms Hin. apply in_map_iff in Hin. destruct Hin as [k' [E _]].
      injection E as _ <-. reflexivity.
Qed.

Lemma class_averages_index_witness :
  exists aug ca sa,
    aggregate three_students = Ok (aug, ca, sa) /\
    NoDup (class_keys ca) /\
    Sorted key_le (class_keys ca) /\
    (forall k, In k (class_keys ca) <-> In k [Str "A"; Str "A"; Str "B"]) /\
    (forall k ms, In (k, ms) (g_rows ca) -> List.length ms = 4%nat).
Proof.
  apply (class_averages_index three_students [Str "A"; Str "A"; Str "B"]).
  - split; [split|split; [|split]].
    + repeat (constructor; [simpl; intuition discriminate|]). constructor.
    + repeat constructor.
    + simpl. lia.
    + repeat constructor.
    + exists [Str "A"; Str "A"; Str "B"]. split; reflexivity.
  - discriminate.
  - reflexivity.
Defined.

(** *** The values of the class averages *)

Lemma slice_add_label cols name :
  (7 <= List.length cols)%nat -> slice 3 7 (add_label cols name) = slice 3 7 cols.
Proof.
  intro H. unfold add_label. destruct (index_of name cols); [reflexivity|].
  now apply slice_app.
Qed.

Lemma slice_columns_augmented df :
  (7 <= List.length (columns df))%nat ->
  slice 3 7 (columns (augmented df)) = slice 3 7 (columns df).
Proof.
  intro H. unfold augmented. cbn [columns].
  rewrite slice_add_label; [now apply slice_add_label|].
  pose proof (length_add_label (columns df) "Total Marks"). lia.
Qed.

Lemma subject_cell_augmented df r j :
  wf_frame df -> (7 <= List.length (columns df))%nat ->
  ~ In "Total Marks" (slice 3 7 (columns df)) ->
  ~ In "Average Marks" (slice 3 7 (columns df)) ->
  In r (rows df) -> (3 <= j < 7)%nat ->
  nth j (augment_row (int_marks df) (columns df) r) NaN = nth j r NaN.
Proof.
  intros [Hnd Hwf] H7 HT HA Hr Hj.
  destruct (nth_error (columns df) j) as [name|] eqn:E.
  - pose proof (index_of_nth _ _ _ Hnd E) as Hi.
    apply (nth_augment_row (int_marks df) (columns df) name); auto.
    + exact (row_length df r Hwf Hr).
    + intros ->. apply HT. exact (index_in_slice _ _ _ Hi Hj).
    + intros ->. apply HA. exact (index_in_slice _ _ _ Hi Hj).
  - apply nth_error_None in E. lia.
Qed.

Lemma group_cells_augmented df key k j :
  wf_frame df -> (7 <= List.length (columns df))%nat ->
  ~ In "Total Marks" (slice 3 7 (columns df)) ->
  ~ In "Average Marks" (slice 3 7 (columns df)) ->
  index_of "Class" (columns df) = Some key ->
  (3 <= j < 7)%nat ->
  cells_at j (group_rows key k (augmented df)) = cells_at j (rows_of_class df k).
Proof.
  intros Hwf H7 HT HA Hkey Hj.
  unfold group_rows, rows_of_class, augmented. rewrite Hkey. cbn [rows].
  rewrite filter_map_swap. unfold cells_at. rewrite map_map.
  rewrite (filter_ext_in _ (fun r => cell_eqb (nth key r NaN) k)).
  - apply map_ext_in. intros r Hr. apply filter_In in Hr.
    now apply subject_cell_augmented.
  - intros r Hr. now rewrite (class_cell_augmented df key r (proj2 Hwf) Hkey Hr).
Qed.

(** X10. On a non-empty student table whose columns at positions 4 to 7 are
    not labelled "Total Marks" or "Average Marks", the class averages are
    labelled with those four columns, and the row of each class holds, for
    each of them in order, the arithmetic mean of that column over the rows
    of that class, of which there is at least one. *)
Theorem class_averages_are_class_means (df : DataFrame) :
  student_table df ->
  rows df <> [] ->
  ~ In "Total Marks" (slice 3 7 (columns df)) ->
  ~ In "Average Marks" (slice 3 7 (columns df)) ->
  exists aug ca sa,
    aggregate df = Ok (aug, ca, sa) /\
    g_columns ca = slice 3 7 (columns df) /\
    forall k ms,
      In (k, ms) (g_rows ca) ->
      rows_of_class df k <> [] /\
      ms = map (fun j => Num (arith_mean (vals (cells_at j (rows_of_class df k)))))
               [3; 4; 5; 6]%nat.
Proof.
  intros Hst Hne HT HA.
  pose proof Hst as [[Hnd Hwf] [H7 [Hnum Hcls]]].
  destruct (class_index df Hcls) as [key Hkey].
  destruct Hcls as [cs [Hcs Hna]].
  eexists _, _, _. split; [exact (aggregate_form df key Hst Hne Hkey)|].
  cbn [g_columns g_rows]. split; [now apply slice_columns_augmented|].
  intros k ms Hin. apply in_map_iff in Hin. destruct Hin as [k' [E Hk]].
  injection E as -> <-. split.
  - apply (group_keys_augmented df key cs k Hwf Hkey Hcs Hna) in Hk.
    unfold column_of in Hcs. rewrite Hkey in Hcs. simpl in Hcs. injection Hcs as <-.
    apply in_map_iff in Hk. destruct Hk as [r [Hk Hr]].
    assert (In r (rows_of_class df k)) as Hg.
    { unfold rows_of_class. rewrite Hkey. apply filter_In. split; [exact Hr|].
      now apply cell_eqb_eq. }
    destruct (rows_of_class df k); [contradiction|discriminate].
  - cbn [map]. unfold group_mean.
    rewrite !(fun j => group_cells_augmented df key k j (conj Hnd Hwf) H7 HT HA Hkey)
      by lia.
    reflexivity.
Qed.

Lemma class_averages_are_class_means_witness :
  exists aug ca sa,
    aggregate three_students = Ok (aug, ca, sa) /\
    g_columns ca = slice 3 7 (columns three_students) /\
    forall k ms,
      In (k, ms) (g_rows ca) ->
      rows_of_class three_students k <> [] /\
      ms = map (fun j => Num (arith_mean
                                (vals (cells_at j (rows_of_class three_students k)))))
               [3; 4; 5; 6]%nat.
Proof.
  apply (class_averages_are_class_means three_students).
  - split; [split|split; [|split]].
    + repeat (constructor; [simpl; intuition discriminate|]). constructor.
    + repeat constructor.
    + simpl. lia.
    + repeat constructor.
    + exists [Str "A"; Str "A"; Str "B"]. split; reflexivity.
  - discriminate.
  - simpl. intros [K|[K|[K|[K|[]]]]]; discriminate.
  - simpl. intros [K|[K|[K|[K|[]]]]]; discriminate.
Defined.

(** *** Missing marks *)

Lemma numeric_present l : no_text l -> numeric l = Ok (present l).
Proof.
  induction 1 as [|c l Hc _ IH]; simpl; [reflexivity|].
  destruct c; simpl in *; try contradiction; rewrite IH; reflexivity.
Qed.

Lemma sum_cells_present r :
  no_text (skipn 3 r) -> sum_cells (skipn 3 r) = Ok (total_present r).
Proof.
  intro H. unfold sum_cells. now rewrite (numeric_present _ H).
Qed.

Lemma mean_cells_present r :
  no_text (skipn 3 r) -> mean_cells (skipn 3 r) = Ok (average_present r).
Proof.
  intro H. unfold mean_cells, average_present.
  rewrite (numeric_present _ H). cbn [bind].
  destruct (present (skipn 3 r)); reflexivity.
Qed.

Lemma slice_seven (r : list cell) x :
  List.length r = 7%nat -> slice 3 7 (r ++ x) = skipn 3 r.
Proof.
  intro H. rewrite slice_app by lia. unfold slice.
  apply firstn_all2. rewrite length_skipn. lia.
Qed.

Lemma total_average_present r :
  match present (skipn 3 r) with
  | [] => total_present r = Num 0 /\ average_present r = NaN
  | xs => average_present r
          = Num (cell_val (total_present r) / Qc_of_nat (List.length xs))
  end.
Proof.
  unfold average_present, total_present.
  destruct (present (skipn 3 r)) as [|x xs] eqn:E; [split; reflexivity|].
  reflexivity.
Qed.

(** X11. On a seven-column sheet with no text from position 4 on, no
    column labelled "Total Marks", and marks that are not all int64 (as when
    a mark is missing), marks may be missing: the total of a row is the sum
    of the marks present and its average is that total divided by the number
    of marks present, not by 4; a row with no mark at all gets total 0 and
    average NaN. Nothing is raised. *)
Theorem missing_marks_are_skipped (df : DataFrame) :
  rows_wf df ->
  List.length (columns df) = 7%nat ->
  Forall (fun r => no_text (skipn 3 r)) (rows df) ->
  ~ In "Total Marks" (columns df) ->
  int_marks df = false ->
  exists aug,
    augment df = Ok aug /\
    column_of "Total Marks" aug = Some (map total_present (rows df)) /\
    column_of "Average Marks" aug = Some (map average_present (rows df)) /\
    forall r, In r (rows df) ->
      match present (skipn 3 r) with
      | [] => total_present r = Num 0 /\ average_present r = NaN
      | xs => average_present r
              = Num (cell_val (total_present r) / Qc_of_nat (List.length xs))
      end.
Proof.
  intros Hwf H7 Hcells HT Hfloat. rewrite Forall_forall in Hcells.
  set (df1 := setitem df "Total Marks" (map total_present (rows df))).
  assert (rows_wf df1) as Hwf1 by apply setitem_rows_wf, Hwf.
  assert (List.length (rows df1) = List.length (rows df)) as Hl1.
  { apply length_rows_setitem. apply length_map. }
  exists (setitem df1 "Average Marks" (map average_present (rows df))).
  split; [|split; [|split]].
  - unfold augment, sum_axis1. fold (int_marks df). rewrite Hfloat.
    cbn [iloc_from rows].
    rewrite (mapM_map_map _ _ total_present)
      by (intros r Hr; apply sum_cells_present; now apply Hcells).
    cbn [bind]. fold df1. unfold df1 at 1.
    rewrite (setitem_fresh df "Total Marks" total_present HT).
    unfold mean_axis1. cbn [iloc rows]. rewrite map_map.
    rewrite (mapM_map_map _ _ average_present); [reflexivity|].
    intros r Hr. rewrite slice_seven by (rewrite (row_length df r Hwf Hr); exact H7).
    apply mean_cells_present. now apply Hcells.
  - rewrite column_of_setitem_other;
      [|discriminate|exact Hwf1|rewrite Hl1; apply length_map].
    unfold df1. apply column_of_setitem_same; [exact Hwf|apply length_map].
  - apply column_of_setitem_same; [exact Hwf1|rewrite Hl1; apply length_map].
  - intros r _. apply total_average_present.
Qed.

Lemma missing_marks_are_skipped_witness :
  exists aug,
    augment missing_marks = Ok aug /\
    column_of "Total Marks" aug = Some (map total_present (rows missing_marks)) /\
    column_of "Average Marks" aug = Some (map average_present (rows missing_marks)) /\
    forall r, In r (rows missing_marks) ->
      match present (skipn 3 r) with
      | [] => total_present r = Num 0 /\ average_present r = NaN
      | xs => average_present r
              = Num (cell_val (total_present r) / Qc_of_nat (List.length xs))
      end.
Proof.
  apply (missing_marks_are_skipped missing_marks).
  - repeat constructor.
  - reflexivity.
  - repeat constructor.
  - simpl. intros [K|[K|[K|[K|[K|[K|[K|[]]]]]]]]; discriminate.
  - reflexivity.
Defined.

(** *** The handler on its own output *)

Lemma Qcsum_append l1 l2 : Qcsum (l1 ++ l2) = Qcsum l1 + Qcsum l2.
Proof.
  induction l1 as [|x l1 IH]; simpl; [ring|]. rewrite IH. ring.
Qed.

Lemma total_of_output r t a :
  List.length r = 7%nat ->
  row_total false (r ++ [t; a])
  = Num (Qcsum (vals (skipn 3 r)) + cell_val t + cell_val a).
Proof.
  intro H. unfold row_total. f_equal.
  rewrite skipn_app. replace (3 - List.length r)%nat with 0%nat by lia.
  unfold vals. rewrite map_app, Qcsum_append. cbn. ring.
Qed.

Lemma average_of_output r v w :
  List.length r = 7%nat ->
  average_of (set_nth 7 v (r ++ [w; average_of r])) = average_of r.
Proof.
  intro H. unfold average_of at 1. rewrite slice_set_nth by lia.
  now rewrite slice_app by lia.
Qed.

Lemma float_cell_marks d r q :
  In r (rows d) -> In (Num q) (skipn 3 r) -> int_marks d = false.
Proof.
  intros Hr Hq. unfold int_marks, int64_frame. cbn [iloc_from columns rows].
  destruct (skipn 3 (columns d)); [reflexivity|].
  apply not_true_is_false. intro H. rewrite forallb_forall in H.
  specialize (H (skipn 3 r) (in_map _ _ _ Hr)).
  rewrite forallb_forall in H. specialize (H _ Hq). discriminate.
Qed.

(** X14. When the handler's own output for a seven-column sheet (the sheet
    with its Total Marks and Average Marks columns) is given to the handler
    again, no column is added; the Average Marks column stays as it was, and
    the Total Marks column is overwritten by the sum of the marks, the old
    total and the old average: twice the total plus the average when no row
    total of int64 marks leaves int64. *)
Theorem handler_on_its_output (df : DataFrame) :
  wf_frame df ->
  List.length (columns df) = 7%nat ->
  numeric_from 3 df ->
  ~ In "Total Marks" (columns df) ->
  ~ In "Average Marks" (columns df) ->
  exists aug aug2,
    augment df = Ok aug /\
    augment aug = Ok aug2 /\
    columns aug2 = columns aug /\
    column_of "Average Marks" aug2 = column_of "Average Marks" aug /\
    column_of "Average Marks" aug2 = Some (map average_of (rows df)) /\
    column_of "Total Marks" aug = Some (map (row_total (int_marks df)) (rows df)) /\
    column_of "Total Marks" aug2
    = Some (map (fun r => Num (Qcsum (vals (skipn 3 r))
                               + cell_val (row_total (int_marks df) r)
                               + cell_val (average_of r)))
                (rows df)) /\
    (no_overflow df ->
     column_of "Total Marks" aug = Some (map (total_of (int_marks df)) (rows df)) /\
     column_of "Total Marks" aug2
     = Some (map (fun r => Num (cell_val (total_of (int_marks df) r)
                                + cell_val (total_of (int_marks df) r)
                                + cell_val (average_of r)))
                 (rows df))).
Proof.
  intros [Hnd Hwf] H7 Hnum HT HA.
  assert (3 < List.length (columns df))%nat as H3 by lia.
  assert (forall r, In r (rows df) -> List.length r = 7%nat) as Hlen.
  { intros r Hr. now rewrite (row_length df r Hwf Hr). }
  set (tot := row_total (int_marks df)).
  (* first run *)
  pose proof (augment_by_rows df Hwf Hnum H3) as Ha. fold (augmented df) in Ha.
  destruct (augmented_invariants df (conj Hnd Hwf) Hnum H3) as [[Hnda Hwfa] [Hnuma Hla]].
  assert (index_of "Average Marks" (columns df ++ ["Total Marks"]) = None) as HA1.
  { apply index_of_None. intro K. apply in_app_or in K.
    destruct K as [K|[K|[]]]; [tauto|discriminate]. }
  assert (columns (augmented df) = columns df ++ ["Total Marks"; "Average Marks"]) as Hcols.
  { unfold augmented, add_label. cbn [columns].
    rewrite (index_of_None _ _ HT), HA1. now rewrite <- app_assoc. }
  assert (rows (augmented df)
          = map (fun r => r ++ [tot r; average_of r]) (rows df)) as Hrows.
  { unfold augmented. cbn [rows]. apply map_ext_in. intros r Hr.
    unfold augment_row, set_cell, add_label.
    rewrite (index_of_None _ _ HT), HA1, <- app_assoc. cbn [app].
    do 3 f_equal. unfold average_of.
    rewrite slice_app by (rewrite (Hlen r Hr); lia). reflexivity. }
  assert (index_of "Total Marks" (columns (augmented df)) = Some 7%nat) as HiT.
  { rewrite Hcols. apply index_of_nth.
    - now rewrite <- Hcols.
    - rewrite nth_error_app2 by lia. now rewrite H7. }
  assert (index_of "Average Marks" (columns (augmented df)) = Some 8%nat) as HiA.
  { rewrite Hcols. apply index_of_nth.
    - now rewrite <- Hcols.
    - rewrite nth_error_app2 by lia. now rewrite H7. }
  (* second run *)
  assert (3 < List.length (columns (augmented df)))%nat as H3a by lia.
  pose proof (augment_by_rows (augmented df) Hwfa Hnuma H3a) as Ha2.
  assert (add_label (add_label (columns (augmented df)) "Total Marks") "Average Marks"
          = columns (augmented df)) as Hcols2.
  { unfold add_label. rewrite HiT, HiA. reflexivity. }
  assert (map (augment_row (int_marks (augmented df)) (columns (augmented df)))
              (rows (augmented df))
          = map (fun r => r ++ [Num (Qcsum (vals (skipn 3 r)) + cell_val (tot r)
                                     + cell_val (average_of r));
                                average_of r]) (rows df)) as Hrows2.
  { rewrite Hrows, map_map. apply map_ext_in. intros r Hr.
    pose proof (Hlen r Hr) as Hl.
    assert (int_marks (augmented df) = false) as Hfloat.
    { apply (float_cell_marks (augmented df) (r ++ [tot r; average_of r])
               (arith_mean (vals (slice 3 7 r)))).
      - rewrite Hrows. now apply (in_map (fun r0 => r0 ++ [tot r0; average_of r0])).
      - rewrite skipn_app. apply in_or_app. right.
        replace (3 - List.length r)%nat with 0%nat by lia.
        cbn [skipn]. right. left. reflexivity. }
    rewrite Hfloat.
    unfold augment_row, set_cell, add_label. rewrite HiT, HiA.
    rewrite (total_of_output r _ _ Hl), (average_of_output r _ _ Hl).
    do 7 (destruct r as [|? r]; [discriminate|]).
    destruct r; [reflexivity|discriminate]. }
  rewrite Hcols2, Hrows2 in Ha2.
  eexists _, _. split; [exact Ha|]. split; [exact Ha2|].
  cbn [columns]. split; [reflexivity|].
  assert (forall (f g : list cell -> cell),
             cells_at 8 (map (fun r => r ++ [f r; g r]) (rows df)) = map g (rows df)) as C8.
  { intros f g. unfold cells_at. rewrite map_map. apply map_ext_in. intros r Hr.
    pose proof (Hlen r Hr) as Hl.
    do 7 (destruct r as [|? r]; [discriminate|]).
    destruct r; [reflexivity|discriminate]. }
  assert (forall (f g : list cell -> cell),
             cells_at 7 (map (fun r => r ++ [f r; g r]) (rows df)) = map f (rows df)) as C7.
  { intros f g. unfold cells_at. rewrite map_map. apply map_ext_in. intros r Hr.
    pose proof (Hlen r Hr) as Hl.
    do 7 (destruct r as [|? r]; [discriminate|]).
    destruct r; [reflexivity|discriminate]. }
  unfold column_of. cbn [columns rows]. rewrite HiT, HiA. cbn [option_map].
  rewrite Hrows, !C7, !C8.
  split; [reflexivity|]. split; [reflexivity|]. split; [reflexivity|].
  split; [reflexivity|]. intro Hfit. unfold tot. split; f_equal.
  - apply map_ext_in. intros r Hr. now apply row_total_exact.
  - apply map_ext_in. intros r Hr.
    rewrite (row_total_exact df r Hfit Hr), (total_of_val df r Hr). reflexivity.
Qed.

Lemma handler_on_its_output_witness :
  exists aug aug2,
    augment three_students = Ok aug /\
    augment aug = Ok aug2 /\
    columns aug2 = columns aug /\
    column_of "Average Marks" aug2 = column_of "Average Marks" aug /\
    column_of "Average Marks" aug2 = Some (map average_of (rows three_students)) /\
    column_of "Total Marks" aug
    = Some (map (row_total (int_marks three_students)) (rows three_students)) /\
    column_of "Total Marks" aug2
    = Some (map (fun r => Num (Qcsum (vals (skipn 3 r))
                               + cell_val (row_total (int_marks three_students) r)
                               + cell_val (average_of r)))
                (rows three_students)) /\
    (no_overflow three_students ->
     column_of "Total Marks" aug
     = Some (map (total_of (int_marks three_students)) (rows three_students)) /\
     column_of "Total Marks" aug2
     = Some (map (fun r => Num (cell_val (total_of (int_marks three_students) r)
                                + cell_val (total_of (int_marks three_students) r)
                                + cell_val (average_of r)))
                 (rows three_students))).
Proof.
  apply (handler_on_its_output three_students).
  - split; [|repeat constructor].
    repeat (constructor; [simpl; intuition discriminate|]). constructor.
  - reflexivity.
  - repeat constructor.
  - simpl. intros [K|[K|[K|[K|[K|[K|[K|[]]]]]]]]; discriminate.
  - simpl. intros [K|[K|[K|[K|[K|[K|[K|[]]]]]]]]; discriminate.
Defined.

End Handler.
